(** * Planar Laplace mechanism for location privacy

    A shallow embedding of [planar_laplace_mechanism.py] and the
    properties of its noise sampler, coordinate perturbation, reader,
    writer and batch driver.

    The Python code computes with IEEE binary64 numbers and calls three
    libraries (the C math library through [math], [scipy.special] and
    the two random generators of [numpy.random] and [random]).  The
    embedding is written once over an interface of the float operations
    the code uses and is then read at two instances:

    - [B64.arith]: Rocq's primitive floats, which are Python's floats
      bit for bit (signed zeros, infinities, NaN), over the C
      library's [sin] and [cos];
    - [Exact.arith]: exact real arithmetic, the reading under which
      the mathematical statements about the Lambert W inversion are
      made.

    The libraries are parameters: [SciPy] for the Lambert W
    evaluation, [RandomSource] for the two generators, [FloatText]
    for [float()] and the formatting of floats. *)

From Stdlib Require Import Reals Lra Psatz ZArith Lia String Ascii Bool List.
From Stdlib Require Import Floats Uint63.
Import ListNotations.

(** * Exceptions *)

(** The exceptions a run can end with.  [ZeroDivisionError] is raised by
    Python's float division, [ValueError] by [float()] on unparsable
    text and by [math.sin] / [math.cos] on an infinite argument.  The
    last three are the error classes of the specification's taxonomy. *)
Inductive exn : Type :=
| ZeroDivisionError
| ValueError
| InvalidBudget
| NumericInversionFailure
| PolarSingularity.

(** * The float interface *)

Class PyFloat (F : Type) : Type := {
  (** an [int] operand promoted to float (exact for the literals of the code) *)
  of_int : Z -> F;
  fadd : F -> F -> F;
  fsub : F -> F -> F;
  fmul : F -> F -> F;
  (** the IEEE quotient: no exception, a zero divisor gives inf or nan *)
  fdiv : F -> F -> F;
  (** [x == 0], true of both signed zeros *)
  feq0 : F -> bool;
  (** [x < y], false as soon as one side is nan *)
  flt : F -> F -> bool;
  math_pi : F;
  math_e : F;
  (** the literals [1e-8] and [0.01] *)
  lit_1e_8 : F;
  lit_0_01 : F;
  (** [math.sin], [math.cos]: [None] is ValueError (math domain error) *)
  math_sin : F -> option F;
  math_cos : F -> option F;
  (** [math.e] is not zero: the quotient by it never raises *)
  math_e_not_zero : feq0 math_e = false
}.

(** Floats from and to text. *)
Class FloatText (F : Type) : Type := {
  (** [float(s)]: [None] is ValueError *)
  float_of_str : string -> option F;
  (** the text of [f"{x}"] *)
  fstr : F -> string
}.

(** [scipy.special.lambertw(z, k, tol)]: a complex number, as the pair
    of its real and imaginary parts. *)
Class SciPy (F : Type) : Type := {
  lambertw : F -> Z -> F -> F * F
}.

(** The two ambient generators: [numpy.random] and [random]. *)
Class RandomSource (F : Type) : Type := {
  NpState : Type;
  PyState : Type;
  (** [np.random.uniform(low, high)] *)
  np_random_uniform : F -> F -> NpState -> F * NpState;
  (** [random.random()] *)
  random_random : PyState -> F * PyState
}.

Record World (F : Type) {RS : RandomSource F} : Type := mkWorld {
  np_rng : NpState;
  py_rng : PyState
}.

Arguments mkWorld {F RS} _ _.
Arguments np_rng {F RS} _.
Arguments py_rng {F RS} _.

(** * State and exception monad *)

Section Monad.
Variable W : Type.

Definition M (A : Type) : Type := W -> (exn + A) * W.

Definition ret (A : Type) (a : A) : M A := fun w => (inr a, w).

Definition raise (A : Type) (e : exn) : M A := fun w => (inl e, w).

Definition bind (A B : Type) (m : M A) (k : A -> M B) : M B :=
  fun w =>
    match m w with
    | (inl e, w') => (inl e, w')
    | (inr a, w') => k a w'
    end.

Definition of_option (A : Type) (e : exn) (o : option A) : M A :=
  match o with
  | Some a => ret A a
  | None => raise A e
  end.
End Monad.

Arguments ret {W A} _ _.
Arguments raise {W A} _ _.
Arguments bind {W A B} _ _ _.
Arguments of_option {W A} _ _ _.

Declare Scope monad_scope.
Delimit Scope monad_scope with monad.
Notation "x <- m ;; k" := (bind m (fun x => k))
  (at level 61, m at next level, right associativity) : monad_scope.
Notation "' p <- m ;; k" := (bind m (fun x => match x with p => k end))
  (at level 61, p pattern, m at next level, right associativity) : monad_scope.

(** * The program *)

Section Program.
Context {F : Type} {FL : PyFloat F} {SP : SciPy F} {RS : RandomSource F}.

Local Open Scope monad_scope.

Definition St : Type := World F.

(** [math.radians(x)]: CPython multiplies by the constant pi / 180. *)
Definition math_radians (x : F) : F :=
  fmul x (fdiv math_pi (of_int 180)).

(** Python's [x / y] on floats. *)
Definition py_div (x y : F) : M St F :=
  if feq0 y then raise ZeroDivisionError else ret (fdiv x y).

Definition draw_np_uniform (low high : F) : M St F :=
  fun w =>
    let (x, s) := np_random_uniform low high (np_rng w) in
    (inr x, mkWorld s (py_rng w)).

Definition draw_random : M St F :=
  fun w =>
    let (x, s) := random_random (py_rng w) in
    (inr x, mkWorld (np_rng w) s).

(** Lines 7-13.  In [-1 / epsilon * (...)] the quotient is the left
    operand of the product and is evaluated first; [.real] is the
    first component of the pair. *)
Definition generate_isotropic_laplace_noise_offset (epsilon : F)
  : M St (F * F) :=
  theta <- draw_np_uniform (of_int 0) (fmul (of_int 2) math_pi) ;;
  p <- draw_random ;;
  a <- py_div (of_int (-1)) epsilon ;;
  z <- py_div (fsub p (of_int 1)) math_e ;;
  let r := fmul a (fadd (fst (lambertw z (-1) lit_1e_8)) (of_int 1)) in
  ret (r, theta).

(** Lines 15-19.  The radius is a numpy float64 (the real part of
    scipy's result), so the two quotients are numpy's: a zero divisor
    raises nothing. *)
Definition add_privacy_noise_to_geographic_coordinate
    (longitude latitude epsilon : F) : M St (F * F) :=
  ' (noise_distance_m, noise_angle) <-
      generate_isotropic_laplace_noise_offset epsilon ;;
  s <- of_option ValueError (math_sin noise_angle) ;;
  let noise_lat_deg := fdiv (fmul noise_distance_m s) (of_int 111320) in
  c <- of_option ValueError (math_cos noise_angle) ;;
  cl <- of_option ValueError (math_cos (math_radians latitude)) ;;
  let noise_lon_deg :=
    fdiv (fmul noise_distance_m c) (fmul (of_int 111320) cl) in
  ret (fadd longitude noise_lon_deg, fadd latitude noise_lat_deg).

(** The specification's two operations.  [sample_offset] is the
    sampler; [perturb] is the part of
    [add_privacy_noise_to_geographic_coordinate] that follows the
    call of the sampler (lines 17-19), as a function of the
    coordinate and of the offset. *)
Definition sample_offset (epsilon : F) : M St (F * F) :=
  generate_isotropic_laplace_noise_offset epsilon.

Definition perturb (coordinate offset : F * F) : exn + (F * F) :=
  let (longitude, latitude) := coordinate in
  let (noise_distance_m, noise_angle) := offset in
  match math_sin noise_angle with
  | None => inl ValueError
  | Some s =>
    match math_cos noise_angle with
    | None => inl ValueError
    | Some c =>
      match math_cos (math_radians latitude) with
      | None => inl ValueError
      | Some cl =>
        inr (fadd longitude
               (fdiv (fmul noise_distance_m c) (fmul (of_int 111320) cl)),
             fadd latitude
               (fdiv (fmul noise_distance_m s) (of_int 111320)))
      end
    end
  end.
End Program.

(** * What a call of the sampler reads from the world *)

Section Draws.
Context {F : Type} {FL : PyFloat F} {SP : SciPy F} {RS : RandomSource F}.

(** The angle: [np.random.uniform(0, 2 * math.pi)] on numpy's
    generator. *)
Definition drawn_angle (w : World F) : F :=
  fst (np_random_uniform (of_int 0) (fmul (of_int 2) math_pi) (np_rng w)).

(** The probability: [random.random()] on Python's generator. *)
Definition drawn_p (w : World F) : F :=
  fst (random_random (py_rng w)).

(** The world once both have been drawn. *)
Definition after_draws (w : World F) : World F :=
  mkWorld
    (snd (np_random_uniform (of_int 0) (fmul (of_int 2) math_pi) (np_rng w)))
    (snd (random_random (py_rng w))).

(** The radius the sampler returns for the budget [epsilon] when
    [random.random()] gave [p]. *)
Definition radius_of (epsilon p : F) : F :=
  fmul (fdiv (of_int (-1)) epsilon)
       (fadd (fst (lambertw (fdiv (fsub p (of_int 1)) math_e) (-1) lit_1e_8))
             (of_int 1)).
End Draws.

(** * Text *)

(** The methods of [str] the reader calls, on ASCII text. *)
Module Str.
Local Open Scope nat_scope.

(** Python's whitespace below 128: tab to carriage return, the four
    separators 28-31 and the space. *)
Definition is_space (c : ascii) : bool :=
  let n := nat_of_ascii c in
  ((9 <=? n) && (n <=? 13)) || ((28 <=? n) && (n <=? 32)).

(** The line boundaries of [str.splitlines] below 128. *)
Definition is_linebreak (c : ascii) : bool :=
  let n := nat_of_ascii c in
  ((10 <=? n) && (n <=? 13)) || ((28 <=? n) && (n <=? 30)).

Definition is_empty (s : string) : bool :=
  match s with
  | EmptyString => true
  | String _ _ => false
  end.

Fixpoint lstrip (s : string) : string :=
  match s with
  | EmptyString => EmptyString
  | String c s' => if is_space c then lstrip s' else s
  end.

Fixpoint rstrip (s : string) : string :=
  match s with
  | EmptyString => EmptyString
  | String c s' =>
    let t := rstrip s' in
    if is_space c && is_empty t then EmptyString else String c t
  end.

(** [s.strip()] *)
Definition strip (s : string) : string := rstrip (lstrip s).

(** [s.split(sep)] for a separator of one character. *)
Fixpoint split (sep : ascii) (s : string) : list string :=
  match s with
  | EmptyString => [EmptyString]
  | String c s' =>
    if Ascii.eqb c sep then EmptyString :: split sep s'
    else
      match split sep s' with
      | [] => [String c EmptyString]
      | x :: xs => String c x :: xs
      end
  end.

(** [s.splitlines()]; [skip_lf] is set right after a carriage return,
    whose following line feed belongs to the same boundary. *)
Fixpoint splitlines_from (skip_lf : bool) (s : string) : list string :=
  match s with
  | EmptyString => []
  | String c s' =>
    if skip_lf && Ascii.eqb c "010" then splitlines_from false s'
    else if is_linebreak c then
      EmptyString :: splitlines_from (Ascii.eqb c "013") s'
    else
      match splitlines_from false s' with
      | [] => [String c EmptyString]
      | l :: ls => String c l :: ls
      end
  end.

Definition splitlines (s : string) : list string := splitlines_from false s.

(** [os.path.splitext] on a file name without directory part: the
    extension starts at the last dot, unless only dots precede it;
    [seen] is set once a character other than a dot has been passed. *)
Fixpoint has_dot (s : string) : bool :=
  match s with
  | EmptyString => false
  | String c s' => Ascii.eqb c "." || has_dot s'
  end.

Fixpoint splitext_from (seen : bool) (s : string) : string * string :=
  match s with
  | EmptyString => (EmptyString, EmptyString)
  | String c s' =>
    if Ascii.eqb c "." && negb (has_dot s') && seen then (EmptyString, s)
    else
      let (base, ext) :=
        splitext_from (seen || negb (Ascii.eqb c ".")) s' in
      (String c base, ext)
  end.

Definition splitext (s : string) : string * string := splitext_from false s.
End Str.

(** * Reader, writers and batch driver *)

(** The file system is a list of directory entries: a name with the
    text of the file, or [None] for an entry that is not a regular
    file.  A written file is the list of the strings passed to
    [file.write], in order.  The warnings and the progress lines
    printed on the way are not part of the model. *)
Section Batch.
Context {F : Type} {FL : PyFloat F} {FT : FloatText F}.
Context {SP : SciPy F} {RS : RandomSource F}.

Local Open Scope monad_scope.
Local Open Scope string_scope.

Definition newline : string := String "010" EmptyString.

(** Lines 26-39, the body of the loop: the coordinate a line
    contributes, [None] when the line is skipped.  [x > y] is
    [y < x]. *)
Definition read_line (line : string) : option (F * F) :=
  let parts := Str.split "," line in
  if negb (Nat.eqb (List.length parts) 2)
     || Str.is_empty (Str.strip (nth 0 parts ""))
     || Str.is_empty (Str.strip (nth 1 parts ""))
  then None
  else
    match float_of_str (Str.strip (nth 0 parts "")) with
    | None => None
    | Some lon =>
      match float_of_str (Str.strip (nth 1 parts "")) with
      | None => None
      | Some lat =>
        if flt lon (of_int (-180)) || flt (of_int 180) lon
           || flt lat (of_int (-90)) || flt (of_int 90) lat
        then None
        else Some (lon, lat)
      end
    end.

(** Lines 21-40; the argument is the text of the file. *)
Definition read_geographic_coordinates (content : string) : list (F * F) :=
  let lines := Str.splitlines (Str.strip content) in
  fold_left
    (fun coordinates line =>
       match read_line line with
       | Some c => (coordinates ++ [c])%list
       | None => coordinates
       end)
    lines [].

(** Lines 42-46. *)
Definition write_geographic_coordinates (coordinates : list (F * F))
  : list string :=
  ("Longitude,Latitude" ++ newline)
    :: map (fun c : F * F =>
              let (longitude, latitude) := c in
              fstr longitude ++ "," ++ fstr latitude ++ newline)
           coordinates.

Definition original_row (orig pert : F * F) : string :=
  let (orig_lon, orig_lat) := orig in
  let (pert_lon, pert_lat) := pert in
  fstr orig_lat ++ "," ++ fstr orig_lon ++ ","
    ++ fstr pert_lat ++ "," ++ fstr pert_lon ++ newline.

(** Lines 48-53; [zip] is [combine]. *)
Definition write_geographic_coordinates_with_original
    (original_coords perturbed_coords : list (F * F)) : list string :=
  ("Latitude,Longitude,Perturbed Latitude,Perturbed Longitude" ++ newline)
    :: map (fun op : (F * F) * (F * F) => original_row (fst op) (snd op))
           (combine original_coords perturbed_coords).

(** Lines 63-65: the loop that appends one perturbed coordinate per
    coordinate read. *)
Fixpoint perturb_loop (coordinates : list (F * F)) (epsilon : F)
    (perturbed_coordinates : list (F * F)) : M St (list (F * F)) :=
  match coordinates with
  | [] => ret perturbed_coordinates
  | (longitude, latitude) :: rest =>
    c <- add_privacy_noise_to_geographic_coordinate
           longitude latitude epsilon ;;
    perturb_loop rest epsilon (perturbed_coordinates ++ [c])%list
  end.

(** Lines 62-72: one file, from its text to the name and the content
    of the file written. *)
Definition process_file (file_name content : string) (epsilon : F)
    (include_original : bool) : M St (string * list string) :=
  let coordinates := read_geographic_coordinates content in
  perturbed_coordinates <- perturb_loop coordinates epsilon [] ;;
  let (base_name, ext) := Str.splitext file_name in
  let output_file_name := base_name ++ "_eps" ++ fstr epsilon ++ ext in
  ret (output_file_name,
       if include_original
       then write_geographic_coordinates_with_original
              coordinates perturbed_coordinates
       else write_geographic_coordinates perturbed_coordinates).

(** Lines 55-73: the files written, in the order of the listing. *)
Fixpoint process_privacy_dataset
    (input_directory : list (string * option string)) (epsilon : F)
    (include_original : bool) : M St (list (string * list string)) :=
  match input_directory with
  | [] => ret []
  | (_, None) :: rest =>
    process_privacy_dataset rest epsilon include_original
  | (file_name, Some content) :: rest =>
    out <- process_file file_name content epsilon include_original ;;
    outs <- process_privacy_dataset rest epsilon include_original ;;
    ret (out :: outs)
  end.

(** Lines 75-80; the listing of [./data] is the argument. *)
Definition main (data : list (string * option string))
  : M St (list (string * list string)) :=
  let epsilon := lit_0_01 in
  let include_original := true in
  process_privacy_dataset data epsilon include_original.

(** What a line adds to the list of coordinates. *)
Definition kept (line : string) : list (F * F) :=
  match read_line line with
  | Some c => [c]
  | None => []
  end.

(** The world in which the loop of lines 64-65 reaches the
    coordinate of index [i]. *)
Fixpoint world_at (coordinates : list (F * F)) (epsilon : F)
    (w : World F) (i : nat) : World F :=
  match i, coordinates with
  | S j, c :: rest =>
    world_at rest epsilon
      (snd (add_privacy_noise_to_geographic_coordinate
              (fst c) (snd c) epsilon w))
      j
  | _, _ => w
  end.

Definition origin : F * F := (of_int 0, of_int 0).
End Batch.

(** * The two arithmetics *)

(** ** IEEE binary64 *)

Module B64.
Local Open Scope float_scope.

Definition int_to_float (z : Z) : float :=
  match z with
  | Z0 => 0
  | Zpos _ => PrimFloat.of_uint63 (Uint63.of_Z z)
  | Zneg p => - PrimFloat.of_uint63 (Uint63.of_Z (Zpos p))
  end.

(** [math.pi], [math.e] and [1e-8], by their bits. *)
Definition pi : float := 0x1.921fb54442d18p+1.
Definition e : float := 0x1.5bf0a8b145769p+1.
Definition tol : float := 0x1.5798ee2308c3ap-27.

(** [math.sin] and [math.cos] over the C library's [sin] and [cos]:
    an infinite argument is a math domain error. *)
Definition guarded (f : float -> float) (x : float) : option float :=
  if PrimFloat.is_infinity x then None else Some (f x).

Definition arith (libm_sin libm_cos : float -> float) : PyFloat float :=
  {| of_int := int_to_float;
     fadd := PrimFloat.add;
     fsub := PrimFloat.sub;
     fmul := PrimFloat.mul;
     fdiv := PrimFloat.div;
     feq0 := fun x => PrimFloat.eqb x 0;
     flt := PrimFloat.ltb;
     math_pi := pi;
     math_e := e;
     lit_1e_8 := tol;
     lit_0_01 := 0x1.47ae147ae147bp-7;
     math_sin := guarded libm_sin;
     math_cos := guarded libm_cos;
     math_e_not_zero := eq_refl |}.

(** The C library at the arguments the examples below use; [nan]
    stands for an argument that is not tabulated. *)
Definition table_sin (x : float) : float :=
  if PrimFloat.eqb x 0 then x else nan.

Definition table_cos (x : float) : float :=
  if PrimFloat.eqb x 0 then 1
  else if PrimFloat.eqb (PrimFloat.abs x) 0x1.921fb54442d18p+0
       then 0x1.1a62633145c07p-54
       else nan.

(** [float()] and [f"{x}"] at the texts the examples below use. *)
Definition table_float (s : string) : option float :=
  if String.eqb s "nan" then Some nan
  else if String.eqb s "0" then Some 0
  else if String.eqb s "90" then Some 90
  else if String.eqb s "-90" then Some (-90)
  else if String.eqb s "180" then Some 180
  else if String.eqb s "-180" then Some (-180)
  else if String.eqb s "181" then Some 181
  else if String.eqb s "91" then Some 91
  else None.

Definition table_str (x : float) : string :=
  if PrimFloat.Leibniz.eqb x 0 then "0.0"
  else if PrimFloat.eqb x 1 then "1.0"
  else if PrimFloat.eqb x 90 then "90.0"
  else if PrimFloat.eqb x 180 then "180.0"
  else if PrimFloat.eqb x 181 then "181.0"
  else "?".

(** [lo <= x <= hi] *)
Definition in_bounds (lo x hi : float) : bool := (lo <=? x) && (x <=? hi).

Definition table_arith : PyFloat float := arith table_sin table_cos.

Definition table_text : FloatText float :=
  {| float_of_str := table_float; fstr := table_str |}.
End B64.

(** ** Exact real arithmetic *)

Module Exact.
Local Open Scope R_scope.

Definition eq0 (x : R) : bool := if Req_dec_T x 0 then true else false.
Definition ltb (x y : R) : bool := if Rlt_dec x y then true else false.

Definition arith : PyFloat R.
Proof.
  refine
    {| of_int := IZR;
       fadd := Rplus;
       fsub := Rminus;
       fmul := Rmult;
       fdiv := Rdiv;
       feq0 := eq0;
       flt := ltb;
       math_pi := PI;
       math_e := exp 1;
       lit_1e_8 := 1e-8;
       lit_0_01 := 0.01;
       math_sin := fun x => Some (sin x);
       math_cos := fun x => Some (cos x);
       math_e_not_zero := _ |}.
  unfold eq0. destruct (Req_dec_T (exp 1) 0) as [E | _].
  - pose proof (exp_pos 1). lra.
  - reflexivity.
Defined.
End Exact.

(** * Test doubles for the libraries *)

(** A random source that replays two given sequences: the [n]-th call
    of [np.random.uniform(low, high)] returns
    [low + (high - low) * u n], the [n]-th call of [random.random()]
    returns [p n]. *)
Definition replay {F : Type} {FL : PyFloat F} (u p : nat -> F)
  : RandomSource F :=
  {| NpState := nat;
     PyState := nat;
     np_random_uniform := fun low high n =>
       (fadd low (fmul (fsub high low) (u n)), S n);
     random_random := fun n => (p n, S n) |}.

(** A Lambert W evaluation that returns the same complex number
    everywhere. *)
Definition always {F : Type} (w : F * F) : SciPy F :=
  {| lambertw := fun _ _ _ => w |}.

(** * The real branch k = -1 of Lambert W *)

Module Branch.
Local Open Scope R_scope.

(** On [[-1/e, 0)] the equation [w * exp w = x] has a solution
    [w <= -1], the value of the branch: [w * exp w - x] is continuous,
    not positive at -1 and positive at [-(1 + 4 / -x)], where
    [exp n > n * n / 4] for [n = 1 + 4 / -x]. *)
Definition solution (x : R) :
  - exp (-1) <= x < 0 -> { w : R | w <= -1 /\ w * exp w = x }.
Proof.
  intros [Hlo Hhi].
  set (f := fun w : R => w * exp w - x).
  assert (Hc : continuity f).
  { unfold f. apply continuity_minus.
    - apply continuity_mult.
      + apply derivable_continuous, derivable_id.
      + apply derivable_continuous, derivable_exp.
    - apply continuity_const. intros a b. reflexivity. }
  set (n := 1 + 4 / - x).
  assert (Hq : 0 < 4 / - x) by (apply Rdiv_lt_0_compat; lra).
  assert (Hn : 1 < n) by (unfold n; lra).
  assert (Hfar : 0 < f (- n)).
  { assert (Hx : - x * (n - 1) = 4) by (unfold n; field; lra).
    assert (He : n * n / 4 < exp n).
    { replace n with (n / 2 + n / 2) at 3 by lra.
      rewrite exp_plus.
      assert (H : 1 + n / 2 < exp (n / 2)) by (apply exp_ineq1; lra).
      nra. }
    assert (Hpos : 0 < exp n) by apply exp_pos.
    assert (Hsmall : n * / exp n < - x).
    { apply Rmult_lt_reg_r with (exp n); [assumption |].
      rewrite Rmult_assoc, Rinv_l by lra. nra. }
    unfold f. rewrite exp_Ropp. lra. }
  destruct (IVT_cor f (- n) (-1) Hc) as [w [[_ Hw] Hz]].
  - lra.
  - assert (H2 : f (-1) <= 0) by (unfold f; lra).
    nra.
  - exists w. unfold f in Hz. split; lra.
Qed.

(** The branch as a function; outside of [[-1/e, 0)], where it is
    not real, the value is a placeholder. *)
Definition W_m1 (x : R) : R :=
  match Rle_dec (- exp (-1)) x, Rlt_dec x 0 with
  | left Hlo, left Hhi => proj1_sig (solution x (conj Hlo Hhi))
  | _, _ => -1
  end.

(** An evaluation of Lambert W that is exact on the branch. *)
Definition exact : SciPy R :=
  {| lambertw := fun z _ _ => (W_m1 z, 0) |}.
End Branch.

(** * The contracts of the libraries, in exact arithmetic *)

Module Contract.
Local Open Scope R_scope.
#[local] Existing Instance Exact.arith.

Section Libraries.
Context {SP : SciPy R} {RS : RandomSource R}.

(** The contracts of the two libraries: numpy's uniform draw lies
    in [[low, high)], and scipy's evaluation on the branch k = -1
    returns, for a real argument in [[-1/e, 0)], the solution
    [w <= -1] of [w * exp w = z]. *)
Definition uniform_in_range : Prop :=
  forall (low high : R) (s : NpState),
    low < high ->
    low <= fst (np_random_uniform low high s) < high.

Definition on_branch : Prop :=
  forall z tol : R,
    - exp (-1) <= z < 0 ->
    fst (lambertw z (-1) tol) <= -1
    /\ fst (lambertw z (-1) tol) * exp (fst (lambertw z (-1) tol)) = z.

(** The factor of [1 / epsilon] in the radius. *)
Definition c_of (p : R) : R :=
  - (fst (lambertw ((p - 1) / exp 1) (-1) 1e-8) + 1).
End Libraries.
End Contract.

(** * Fixed runs *)

(** A random source that makes [np.random.uniform(0, 2 * math.pi)]
    return 0 and [random.random()] return 0.5, in each arithmetic. *)
Module Fixture.
Definition source64 : RandomSource float :=
  @replay float B64.table_arith (fun _ => 0%float) (fun _ => 0.5%float).

Definition start64 : @World float source64 :=
  @mkWorld float source64 0%nat 0%nat.

Definition later64 : @World float source64 :=
  @mkWorld float source64 3%nat 5%nat.

Definition sourceR : RandomSource R :=
  @replay R Exact.arith (fun _ => 0%R) (fun _ => (1 / 2)%R).

Definition startR : @World R sourceR := @mkWorld R sourceR 0%nat 0%nat.

(** The value of a run that returned, [d] for one that raised. *)
Definition result_or {A : Type} (d : A) (r : exn + A) : A :=
  match r with
  | inr a => a
  | inl _ => d
  end.

(** Two lines: the origin and a point on the antimeridian. *)
Definition two_lines : string :=
  ("0,0" ++ newline ++ "180,0" ++ newline)%string.
End Fixture.

(** * Vocabulary for the properties of the batch and of the text *)

Module Text.
(** The number of occurrences of [c] in [s]. *)
Fixpoint count (c : ascii) (s : string) : nat :=
  match s with
  | EmptyString => 0
  | String a s' => (if Ascii.eqb a c then 1 else 0) + count c s'
  end.

(** [sep.join(parts)] for a separator of one character. *)
Fixpoint join (sep : ascii) (parts : list string) : string :=
  match parts with
  | [] => EmptyString
  | [x] => x
  | x :: rest => (x ++ String sep (join sep rest))%string
  end.

(** Every character of [s] satisfies [f]. *)
Fixpoint all (f : ascii -> bool) (s : string) : bool :=
  match s with
  | EmptyString => true
  | String a s' => f a && all f s'
  end.

(** The last character of [s] satisfies [f]. *)
Fixpoint last_is (f : ascii -> bool) (s : string) : bool :=
  match s with
  | EmptyString => false
  | String a EmptyString => f a
  | String _ s' => last_is f s'
  end.

(** The first character of [s] satisfies [f]. *)
Definition first_is (f : ascii -> bool) (s : string) : bool :=
  match s with
  | EmptyString => false
  | String a _ => f a
  end.

Definition is_dot (a : ascii) : bool := Ascii.eqb a ".".

(** [line] holds no line boundary. *)
Definition no_break (line : string) : bool :=
  all (fun c : ascii => negb (Str.is_linebreak c)) line.

(** [s] holds a dot that comes after a character other than a dot;
    [seen] tells whether such a character came before [s]. *)
Fixpoint dot_after_other (seen : bool) (s : string) : bool :=
  match s with
  | EmptyString => false
  | String a s' =>
    (is_dot a && seen) || dot_after_other (seen || negb (is_dot a)) s'
  end.
End Text.

Section BatchVocabulary.
Context {F : Type} {FL : PyFloat F} {FT : FloatText F}.
Context {SP : SciPy F} {RS : RandomSource F}.

(** Lines 66-67: the name of the file written for [file_name]. *)
Definition output_name (epsilon : F) (file_name : string) : string :=
  let (base_name, ext) := Str.splitext file_name in
  (base_name ++ "_eps" ++ fstr epsilon ++ ext)%string.

(** The regular files of a listing, in order, with their texts. *)
Definition regular_files (input_directory : list (string * option string))
  : list (string * string) :=
  flat_map
    (fun entry : string * option string =>
       match snd entry with
       | Some content => [(fst entry, content)]
       | None => []
       end)
    input_directory.

(** No regular file of the listing holds a line that is kept. *)
Definition no_coordinates (input_directory : list (string * option string))
  : bool :=
  forallb
    (fun file : string * string =>
       match read_geographic_coordinates (snd file) with
       | [] => true
       | _ :: _ => false
       end)
    (regular_files input_directory).

(** The first string written, by each of the two writers. *)
Definition header (include_original : bool) : string :=
  if include_original
  then ("Latitude,Longitude,Perturbed Latitude,Perturbed Longitude"
          ++ newline)%string
  else ("Longitude,Latitude" ++ newline)%string.

(** The row of lines 45-46. *)
Definition perturbed_row (c : F * F) : string :=
  (fstr (fst c) ++ "," ++ fstr (snd c) ++ newline)%string.

(** The offset the sampler returns at its call of index [i] from the
    world [w], as long as it does not raise. *)
Definition offset_at (epsilon : F) (w : World F) (i : nat) : F * F :=
  (radius_of epsilon (drawn_p (Nat.iter i after_draws w)),
   drawn_angle (Nat.iter i after_draws w)).
End BatchVocabulary.

(** * More fixed inputs *)

Module Inputs.
(** A listing: a file of two lines, an entry that is not a file, and
    an empty file. *)
Definition listing : list (string * option string) :=
  [("a.csv"%string, Some Fixture.two_lines);
   ("sub"%string, None);
   ("empty.txt"%string, Some EmptyString)].

(** A random source whose first [random.random()] is 0 and whose
    later ones are 1/2; the angle is always 0. *)
Definition source_from_zero : RandomSource R :=
  @replay R Exact.arith (fun _ => 0%R)
    (fun n => match n with O => 0%R | S _ => (1 / 2)%R end).

Definition first_draw : @World R source_from_zero :=
  @mkWorld R source_from_zero 0%nat 0%nat.

Definition second_draw : @World R source_from_zero :=
  @mkWorld R source_from_zero 0%nat 1%nat.

(** A [float()] that parses nothing, for runs in exact arithmetic
    over files without coordinates. *)
Definition no_text : FloatText R :=
  {| float_of_str := fun _ => None; fstr := fun _ => EmptyString |}.
End Inputs.

(** * Facts that hold in every arithmetic *)

Section ProgramFacts.
Context {F : Type} {FL : PyFloat F} {SP : SciPy F} {RS : RandomSource F}.

(** A run of the sampler: the two draws, then the division. *)
Lemma sampler_run (epsilon : F) (w : World F) :
  generate_isotropic_laplace_noise_offset epsilon w =
  (if feq0 epsilon then inl ZeroDivisionError
   else inr (radius_of epsilon (drawn_p w), drawn_angle w),
   after_draws w).
Proof.
  unfold generate_isotropic_laplace_noise_offset, bind, draw_np_uniform,
    draw_random, py_div, radius_of, drawn_p, drawn_angle, after_draws.
  destruct (np_random_uniform (of_int 0) (fmul (of_int 2) math_pi) (np_rng w))
    as [theta s1].
  cbn [np_rng py_rng fst snd].
  destruct (random_random (py_rng w)) as [p s2].
  cbn [np_rng py_rng fst snd].
  destruct (feq0 epsilon).
  - reflexivity.
  - unfold ret at 1. rewrite math_e_not_zero. reflexivity.
Qed.

Lemma sampler_world (epsilon : F) (w : World F) :
  snd (generate_isotropic_laplace_noise_offset epsilon w) = after_draws w.
Proof. rewrite sampler_run. reflexivity. Qed.

(** The perturbation is the sampler followed by [perturb]. *)
Lemma add_noise_run (longitude latitude epsilon : F) (w : World F) :
  add_privacy_noise_to_geographic_coordinate longitude latitude epsilon w =
  (match fst (generate_isotropic_laplace_noise_offset epsilon w) with
   | inl e => inl e
   | inr offset => perturb (longitude, latitude) offset
   end,
   snd (generate_isotropic_laplace_noise_offset epsilon w)).
Proof.
  unfold add_privacy_noise_to_geographic_coordinate, bind.
  destruct (generate_isotropic_laplace_noise_offset epsilon w)
    as [[e | [r theta]] w'];
    cbn [fst snd]; [reflexivity |].
  unfold perturb, of_option.
  destruct (math_sin theta); [| reflexivity].
  destruct (math_cos theta); [| reflexivity].
  destruct (math_cos (math_radians latitude)); reflexivity.
Qed.

Lemma perturb_not_polar (coordinate offset : F * F) :
  perturb coordinate offset <> inl PolarSingularity.
Proof.
  destruct coordinate as [lon lat], offset as [r theta]. unfold perturb.
  destruct (math_sin theta); [| discriminate].
  destruct (math_cos theta); [| discriminate].
  destruct (math_cos (math_radians lat)); discriminate.
Qed.
End ProgramFacts.

(** * The real branch: its equation and its uniqueness *)

Module BranchFacts.
Import Branch.
Local Open Scope R_scope.

Lemma W_m1_spec (x : R) :
  - exp (-1) <= x < 0 -> W_m1 x <= -1 /\ W_m1 x * exp (W_m1 x) = x.
Proof.
  intros [Hlo Hhi]. unfold W_m1.
  destruct (Rle_dec (- exp (-1)) x) as [Hlo' | Hn]; [| contradiction].
  destruct (Rlt_dec x 0) as [Hhi' | Hn]; [| contradiction].
  apply (proj2_sig (solution x (conj Hlo' Hhi'))).
Qed.

(** [w * exp w] is strictly decreasing on [w <= -1], so the solution
    is the only one. *)
Lemma decreasing (a b : R) :
  a < b -> b <= -1 -> b * exp b < a * exp a.
Proof.
  intros Hab Hb.
  assert (Hd : 1 + (b - a) < exp (b - a)) by (apply exp_ineq1; lra).
  assert (Hsplit : exp b = exp a * exp (b - a)).
  { rewrite <- exp_plus. f_equal. lra. }
  pose proof (exp_pos a) as Ha.
  rewrite Hsplit.
  assert (Hk : b * exp (b - a) < a).
  { assert (H1 : b * exp (b - a) < b * (1 + (b - a))).
    { apply Rmult_lt_gt_compat_neg_l; lra. }
    assert (H2 : b * (b - a) <= - (b - a)) by nra.
    lra. }
  rewrite <- Rmult_assoc, (Rmult_comm b (exp a)), Rmult_assoc.
  rewrite (Rmult_comm a (exp a)).
  apply Rmult_lt_compat_l; assumption.
Qed.

Lemma unique (x w1 w2 : R) :
  w1 <= -1 -> w2 <= -1 -> w1 * exp w1 = x -> w2 * exp w2 = x -> w1 = w2.
Proof.
  intros H1 H2 E1 E2.
  destruct (Rtotal_order w1 w2) as [Hlt | [Heq | Hgt]]; [| assumption |].
  - pose proof (decreasing w1 w2 Hlt H2). lra.
  - pose proof (decreasing w2 w1 Hgt H1). lra.
Qed.
End BranchFacts.

(** * The sampler and the perturbation in exact arithmetic *)

Module ExactFacts.
Import Contract.
Local Open Scope R_scope.
#[local] Existing Instance Exact.arith.

Lemma nonzero_budget (epsilon : R) :
  epsilon <> 0 -> feq0 epsilon = false.
Proof.
  intros H. cbn. unfold Exact.eq0.
  destruct (Req_dec_T epsilon 0); [contradiction | reflexivity].
Qed.

Lemma zero_budget : feq0 0 = true.
Proof.
  cbn. unfold Exact.eq0.
  destruct (Req_dec_T 0 0) as [_ | H]; [reflexivity | now elim H].
Qed.

Section Sampler.
Context {SP : SciPy R} {RS : RandomSource R}.

Lemma radius_exact (epsilon p : R) :
  epsilon <> 0 ->
  radius_of epsilon p =
  - (1 / epsilon) * (fst (lambertw ((p - 1) / exp 1) (-1) 1e-8) + 1).
Proof. intros H. unfold radius_of. cbn. field. exact H. Qed.

Lemma exact_run (epsilon : R) (w : World R) :
  epsilon <> 0 ->
  fst (generate_isotropic_laplace_noise_offset epsilon w) =
    inr (- (1 / epsilon)
           * (fst (lambertw ((drawn_p w - 1) / exp 1) (-1) 1e-8) + 1),
         drawn_angle w).
Proof.
  intros H. rewrite sampler_run, (nonzero_budget epsilon H). cbn [fst].
  rewrite (radius_exact epsilon (drawn_p w) H). reflexivity.
Qed.

(** C1: for a budget other than zero the sampler returns the radius
    [-(1/epsilon) * (W + 1)], where [W] is the real part of
    [lambertw((p - 1) / e, k = -1, tol = 1e-8)] and [p] is the
    draw of [random.random()]; the angle is the draw of
    [np.random.uniform(0, 2 * pi)], in which [epsilon] does not
    occur. *)
Theorem sampler_inversion (epsilon : R) (w : World R) :
  epsilon <> 0 ->
  fst (generate_isotropic_laplace_noise_offset epsilon w) =
    inr (- (1 / epsilon)
           * (fst (lambertw ((drawn_p w - 1) / exp 1) (-1) 1e-8) + 1),
         drawn_angle w)
  /\ drawn_angle w = fst (np_random_uniform 0 (2 * PI) (np_rng w)).
Proof.
  intros H. split; [apply exact_run; exact H | reflexivity].
Qed.

Lemma argument_in_domain (p : R) :
  0 <= p < 1 -> - exp (-1) <= (p - 1) / exp 1 < 0.
Proof.
  intros [Hlo Hhi].
  replace (exp (-1)) with (/ exp 1)
    by (rewrite <- exp_Ropp; f_equal; lra).
  pose proof (exp_pos 1) as He.
  assert (Hi : 0 < / exp 1) by (apply Rinv_0_lt_compat; exact He).
  unfold Rdiv. split; nra.
Qed.

Lemma c_of_nonneg (p : R) : on_branch -> 0 <= p < 1 -> 0 <= c_of p.
Proof.
  intros Hb Hp. unfold c_of.
  destruct (Hb _ 1e-8 (argument_in_domain p Hp)) as [Hw _]. lra.
Qed.

(** What the inversion inverts: the radius [r] satisfies
    [1 - (1 + epsilon r) exp (- epsilon r) = p], the cumulative
    distribution of the radius of the planar Laplace density. *)
Lemma radial_cdf_inverted (epsilon p : R) :
  on_branch -> 0 < epsilon -> 0 <= p < 1 ->
  1 - (1 + epsilon * (c_of p / epsilon)) * exp (- (epsilon * (c_of p / epsilon)))
  = p.
Proof.
  intros Hb He Hp.
  destruct (Hb _ 1e-8 (argument_in_domain p Hp)) as [_ Hw].
  assert (Hr : epsilon * (c_of p / epsilon) = c_of p) by (field; lra).
  rewrite Hr. unfold c_of.
  set (W := fst (lambertw ((p - 1) / exp 1) (-1) 1e-8)) in *.
  replace (- - (W + 1)) with (W + 1) by lra.
  rewrite exp_plus.
  pose proof (exp_pos 1) as He1.
  assert (Hz : W * exp W * exp 1 = p - 1).
  { rewrite Hw. field. lra. }
  nra.
Qed.

(** C2: for a positive budget and a draw [p] in [[0, 1)] (so for
    every [p] in [(0, 1)]) the sampler returns a pair [(r, theta)]
    with [0 <= r] a real number and [0 <= theta < 2 * pi]. *)
Theorem sampler_range (epsilon : R) (w : World R) :
  uniform_in_range -> on_branch ->
  0 < epsilon -> 0 <= drawn_p w < 1 ->
  exists r theta : R,
    fst (sample_offset epsilon w) = inr (r, theta)
    /\ 0 <= r /\ 0 <= theta < 2 * PI.
Proof.
  intros Hu Hb He Hp.
  assert (Hrun := exact_run epsilon w ltac:(lra)).
  exists (- (1 / epsilon)
          * (fst (lambertw ((drawn_p w - 1) / exp 1) (-1) 1e-8) + 1)),
    (drawn_angle w).
  split; [exact Hrun | split].
  - pose proof (c_of_nonneg (drawn_p w) Hb Hp) as Hc. unfold c_of in Hc.
    assert (Hi : 0 < 1 / epsilon) by (apply Rdiv_lt_0_compat; lra).
    nra.
  - change (0 <= fst (np_random_uniform 0 (2 * PI) (np_rng w)) < 2 * PI).
    apply Hu. pose proof PI_RGT_0. lra.
Qed.
End Sampler.
End ExactFacts.

Module ExactPerturbation.
Local Open Scope R_scope.
#[local] Existing Instance Exact.arith.
Import Contract ExactFacts.

Lemma perturb_exact (lon lat r theta : R) :
  perturb (lon, lat) (r, theta) =
  inr (lon + r * cos theta / (111320 * cos (lat * (PI / 180))),
       lat + r * sin theta / 111320).
Proof. reflexivity. Qed.

(** C3: the perturbed coordinate is
    [(lon + r cos theta / (111320 cos (lat pi / 180)),
      lat + r sin theta / 111320)]
    for the offset [(r, theta)] the sampler returned; nothing is
    clamped: the coordinate [(180, 0)] with the offset [(111320, 0)]
    gives the longitude 181. *)
Theorem perturbation_formula :
  (forall lon lat r theta : R,
      perturb (lon, lat) (r, theta) =
      inr (lon + r * cos theta / (111320 * cos (lat * (PI / 180))),
           lat + r * sin theta / 111320))
  /\ (forall (SP : SciPy R) (RS : RandomSource R)
             (lon lat epsilon : R) (w : World R),
         fst (add_privacy_noise_to_geographic_coordinate lon lat epsilon w) =
         match fst (generate_isotropic_laplace_noise_offset epsilon w) with
         | inl e => inl e
         | inr offset => perturb (lon, lat) offset
         end)
  /\ (exists lon lat r theta : R,
         -180 <= lon <= 180 /\ -90 <= lat <= 90
         /\ 0 <= r /\ 0 <= theta < 2 * PI
         /\ perturb (lon, lat) (r, theta) = inr (181, 0)).
Proof.
  split; [exact perturb_exact | split].
  - intros SP RS lon lat epsilon w. rewrite add_noise_run. reflexivity.
  - exists 180, 0, 111320, 0.
    pose proof PI_RGT_0 as Hpi.
    repeat split; try lra.
    rewrite perturb_exact. rewrite Rmult_0_l, cos_0, sin_0.
    f_equal. f_equal; field.
Qed.

Lemma div_nonneg (a b : R) : 0 <= a -> 0 < b -> 0 <= a / b.
Proof.
  intros Ha Hb. unfold Rdiv. apply Rmult_le_pos; [exact Ha |].
  left. apply Rinv_0_lt_compat. exact Hb.
Qed.

Lemma quotient_small (r s d delta : R) :
  0 <= r -> -1 <= s <= 1 -> d <> 0 -> r < delta * Rabs d ->
  Rabs (r * s / d) < delta.
Proof.
  intros Hr Hs Hd Hlt.
  unfold Rdiv. rewrite !Rabs_mult, Rabs_inv, (Rabs_pos_eq r Hr).
  assert (Hpos : 0 < Rabs d) by (apply Rabs_pos_lt; exact Hd).
  assert (Hs1 : Rabs s <= 1) by (apply Rabs_le; lra).
  pose proof (Rabs_pos s) as Hs0.
  apply Rmult_lt_reg_r with (Rabs d); [assumption |].
  rewrite Rmult_assoc, Rinv_l by lra. nra.
Qed.

Section Limit.
Context {SP : SciPy R} {RS : RandomSource R}.

Lemma run_with_c (lon lat epsilon : R) (w : World R) :
  epsilon <> 0 ->
  fst (generate_isotropic_laplace_noise_offset epsilon w) =
    inr (c_of (drawn_p w) / epsilon, drawn_angle w)
  /\ fst (add_privacy_noise_to_geographic_coordinate lon lat epsilon w) =
    inr (lon + c_of (drawn_p w) / epsilon * cos (drawn_angle w)
               / (111320 * cos (lat * (PI / 180))),
         lat + c_of (drawn_p w) / epsilon * sin (drawn_angle w) / 111320).
Proof.
  intros He.
  pose proof (exact_run epsilon w He) as Hrun.
  assert (Hc : - (1 / epsilon)
               * (fst (lambertw ((drawn_p w - 1) / exp 1) (-1) 1e-8) + 1)
               = c_of (drawn_p w) / epsilon).
  { unfold c_of. field. exact He. }
  rewrite Hc in Hrun. split; [exact Hrun |].
  rewrite add_noise_run, Hrun. cbn [fst]. apply perturb_exact.
Qed.

(** C8: with the draw [p] fixed, the radius is [c / epsilon] for a
    factor [c >= 0] in which [epsilon] does not occur; as
    [epsilon] grows the radius tends to 0 and the perturbed
    coordinate to the original one (for the longitude, where
    [cos] of the latitude is not zero). *)
Theorem radius_inverse_in_budget (lon lat : R) (w : World R) :
  on_branch -> 0 <= drawn_p w < 1 ->
  0 <= c_of (drawn_p w)
  /\ (forall epsilon : R,
         epsilon <> 0 ->
         fst (generate_isotropic_laplace_noise_offset epsilon w) =
         inr (c_of (drawn_p w) / epsilon, drawn_angle w))
  /\ (forall delta : R,
         0 < delta ->
         exists E : R,
           0 < E
           /\ forall epsilon : R,
               E < epsilon ->
               exists lon' lat' : R,
                 fst (add_privacy_noise_to_geographic_coordinate
                        lon lat epsilon w) = inr (lon', lat')
                 /\ 0 <= c_of (drawn_p w) / epsilon < delta
                 /\ Rabs (lat' - lat) < delta
                 /\ (cos (lat * (PI / 180)) <> 0 ->
                     Rabs (lon' - lon) < delta)).
Proof.
  intros Hb Hp.
  pose proof (c_of_nonneg (drawn_p w) Hb Hp) as Hc.
  set (c := c_of (drawn_p w)) in *.
  split; [exact Hc | split].
  - intros epsilon He. apply (run_with_c lon lat epsilon w He).
  - intros delta Hd.
    set (k := 111320 * cos (lat * (PI / 180))).
    set (m := if Req_dec_T k 0 then 1 else Rmin 1 (Rabs k)).
    assert (Hm : 0 < m <= 1).
    { unfold m. destruct (Req_dec_T k 0) as [_ | Hk]; [lra |].
      pose proof (Rabs_pos_lt k Hk). pose proof (Rmin_l 1 (Rabs k)).
      split; [apply Rmin_glb_lt; lra | assumption]. }
    assert (Hdm : 0 < delta * m) by nra.
    exists (c / (delta * m) + 1).
    assert (HE : 0 < c / (delta * m) + 1).
    { assert (0 <= c / (delta * m)) by (apply div_nonneg; lra). lra. }
    split; [exact HE |].
    intros epsilon Heps.
    assert (He0 : 0 < epsilon) by lra.
    destruct (run_with_c lon lat epsilon w) as [_ Hrun]; [lra |].
    fold c in Hrun. fold k in Hrun.
    assert (Hr : 0 <= c / epsilon) by (apply div_nonneg; lra).
    assert (Hsmall : c / epsilon < delta * m).
    { apply Rmult_lt_reg_r with epsilon; [exact He0 |].
      unfold Rdiv at 1. rewrite Rmult_assoc, Rinv_l by lra.
      assert (Hq : c / (delta * m) * (delta * m) = c) by (field; lra).
      nra. }
    eexists _, _. split; [exact Hrun |].
    split; [split; [exact Hr | nra] |].
    split.
    + replace (lat + c / epsilon * sin (drawn_angle w) / 111320 - lat)
        with (c / epsilon * sin (drawn_angle w) / 111320) by lra.
      apply quotient_small; [exact Hr | apply SIN_bound | lra |].
      rewrite (Rabs_pos_eq 111320) by lra. nra.
    + intros Hcos.
      replace (lon + c / epsilon * cos (drawn_angle w) / k - lon)
        with (c / epsilon * cos (drawn_angle w) / k) by lra.
      assert (Hk : k <> 0) by (unfold k; nra).
      apply quotient_small; [exact Hr | apply COS_bound | exact Hk |].
      assert (Hmk : m <= Rabs k).
      { unfold m. destruct (Req_dec_T k 0); [contradiction |].
        apply Rmin_r. }
      nra.
Qed.
End Limit.
End ExactPerturbation.

(** * Errors and determinism, in every arithmetic *)

Section Errors.
Context {F : Type} {FL : PyFloat F} {RS : RandomSource F}.

(** C4, as the code has it: the budget is not validated.  The
    sampler draws the angle and the probability, then raises
    ZeroDivisionError when [epsilon == 0] and returns the offset
    [((-1 / epsilon) * (Re W + 1), theta)] for every other budget,
    the negative ones included. *)
Theorem budget_not_validated (SP : SciPy F) (epsilon : F) (w : World F) :
  fst (sample_offset epsilon w) =
  if feq0 epsilon then inl ZeroDivisionError
  else inr (fmul (fdiv (of_int (-1)) epsilon)
              (fadd (fst (lambertw (fdiv (fsub (drawn_p w) (of_int 1)) math_e)
                                   (-1) lit_1e_8))
                    (of_int 1)),
            drawn_angle w).
Proof. unfold sample_offset. rewrite sampler_run. reflexivity. Qed.

(** C5, as the code has it: no latitude is singled out.  Whenever
    the sampler returns an offset and [math.sin], [math.cos] are
    defined at their arguments, the quotient by
    [111320 * cos(radians(latitude))] is taken and the coordinate is
    returned. *)
Theorem pole_not_detected (SP : SciPy F)
    (longitude latitude epsilon : F) (w : World F) (r theta s c cl : F) :
  fst (generate_isotropic_laplace_noise_offset epsilon w) = inr (r, theta) ->
  math_sin theta = Some s ->
  math_cos theta = Some c ->
  math_cos (math_radians latitude) = Some cl ->
  fst (add_privacy_noise_to_geographic_coordinate longitude latitude epsilon w)
  = inr (fadd longitude (fdiv (fmul r c) (fmul (of_int 111320) cl)),
         fadd latitude (fdiv (fmul r s) (of_int 111320))).
Proof.
  intros Hrun Hs Hc Hcl.
  rewrite add_noise_run, Hrun. cbn [fst].
  unfold perturb. rewrite Hs, Hc, Hcl. reflexivity.
Qed.

(** The only exceptions of a run: ZeroDivisionError from the sampler,
    ValueError from [math.sin] and [math.cos].  None of the three
    error classes of the specification is ever raised. *)
Lemma sampler_raises_only (SP : SciPy F) (epsilon : F) (w : World F)
    (e : exn) :
  fst (sample_offset epsilon w) = inl e ->
  e = ZeroDivisionError /\ feq0 epsilon = true.
Proof.
  unfold sample_offset. rewrite sampler_run. cbn [fst].
  destruct (feq0 epsilon); [| discriminate].
  intros H. injection H as <-. split; reflexivity.
Qed.

Lemma add_noise_raises_only (SP : SciPy F)
    (longitude latitude epsilon : F) (w : World F) (e : exn) :
  fst (add_privacy_noise_to_geographic_coordinate longitude latitude epsilon w)
  = inl e ->
  e = ZeroDivisionError \/ e = ValueError.
Proof.
  rewrite add_noise_run. cbn [fst]. rewrite sampler_run. cbn [fst].
  destruct (feq0 epsilon).
  - intros H. injection H as <-. left. reflexivity.
  - unfold perturb.
    destruct (math_sin (drawn_angle w));
      [| intros H; injection H as <-; right; reflexivity].
    destruct (math_cos (drawn_angle w));
      [| intros H; injection H as <-; right; reflexivity].
    destruct (math_cos (math_radians latitude)); [discriminate |].
    intros H; injection H as <-; right; reflexivity.
Qed.

(** C6, as the code has it: the imaginary part of the Lambert W
    evaluation is dropped.  Two evaluations with the same real parts
    give the same run of the sampler, and no run ends in
    NumericInversionFailure. *)
Theorem imaginary_part_ignored (SP1 SP2 : SciPy F)
    (epsilon : F) (w : World F) :
  (forall (z : F) (k : Z) (tol : F),
      fst (@lambertw F SP1 z k tol) = fst (@lambertw F SP2 z k tol)) ->
  @generate_isotropic_laplace_noise_offset F FL SP1 RS epsilon w
  = @generate_isotropic_laplace_noise_offset F FL SP2 RS epsilon w
  /\ fst (@generate_isotropic_laplace_noise_offset F FL SP1 RS epsilon w)
     <> inl NumericInversionFailure.
Proof.
  intros Hre. rewrite !sampler_run. unfold radius_of. rewrite Hre.
  split; [reflexivity |]. cbn [fst].
  destruct (feq0 epsilon); discriminate.
Qed.

(** C7: the perturbation is a function of the coordinate and of the
    offset.  Two calls in which the sampler returned the same offset
    return the same coordinate, which is [perturb] of the coordinate
    and the offset, and a call leaves the generators as the sampler
    left them. *)
Theorem perturb_deterministic (SP : SciPy F)
    (longitude latitude epsilon1 epsilon2 : F) (w1 w2 : World F)
    (offset : F * F) :
  fst (sample_offset epsilon1 w1) = inr offset ->
  fst (sample_offset epsilon2 w2) = inr offset ->
  fst (add_privacy_noise_to_geographic_coordinate
         longitude latitude epsilon1 w1)
  = fst (add_privacy_noise_to_geographic_coordinate
           longitude latitude epsilon2 w2)
  /\ fst (add_privacy_noise_to_geographic_coordinate
            longitude latitude epsilon1 w1)
     = perturb (longitude, latitude) offset
  /\ snd (add_privacy_noise_to_geographic_coordinate
            longitude latitude epsilon1 w1)
     = snd (sample_offset epsilon1 w1).
Proof.
  unfold sample_offset. intros H1 H2.
  rewrite !add_noise_run. cbn [fst snd]. rewrite H1, H2.
  repeat split.
Qed.
End Errors.

(** * The batch *)

Section BatchFacts.
Context {F : Type} {FL : PyFloat F} {FT : FloatText F}.
Context {SP : SciPy F} {RS : RandomSource F}.

Lemma loop_step (c : F * F) (rest : list (F * F)) (epsilon : F)
    (acc : list (F * F)) (w : World F) :
  perturb_loop (c :: rest) epsilon acc w =
  match add_privacy_noise_to_geographic_coordinate
          (fst c) (snd c) epsilon w with
  | (inl e, w') => (inl e, w')
  | (inr p, w') => perturb_loop rest epsilon (acc ++ [p]) w'
  end.
Proof. destruct c as [lon lat]. reflexivity. Qed.

Lemma loop_result (coordinates : list (F * F)) (epsilon : F) :
  forall (acc ps : list (F * F)) (w w' : World F),
    perturb_loop coordinates epsilon acc w = (inr ps, w') ->
    exists qs : list (F * F),
      ps = acc ++ qs
      /\ length qs = length coordinates
      /\ forall i : nat,
          i < length coordinates ->
          fst (add_privacy_noise_to_geographic_coordinate
                 (fst (nth i coordinates origin))
                 (snd (nth i coordinates origin))
                 epsilon (world_at coordinates epsilon w i))
          = inr (nth i qs origin).
Proof.
  induction coordinates as [| c rest IH]; intros acc ps w w' Hrun.
  - cbn in Hrun. injection Hrun as Hps _. exists []. subst ps.
    rewrite app_nil_r. repeat split. intros i Hi. inversion Hi.
  - rewrite loop_step in Hrun.
    destruct (add_privacy_noise_to_geographic_coordinate
                (fst c) (snd c) epsilon w) as [[e | p] w1] eqn:Hc;
      [discriminate |].
    destruct (IH _ _ _ _ Hrun) as (qs & Hps & Hlen & Hnth).
    exists (p :: qs). rewrite <- app_assoc in Hps. cbn [app] in Hps.
    split; [exact Hps | split; [cbn [length]; lia |]].
    intros [| j] Hj.
    + cbn [nth world_at]. rewrite Hc. reflexivity.
    + cbn [nth world_at]. rewrite Hc. cbn [snd].
      apply Hnth. cbn [length] in Hj. lia.
Qed.

Lemma rows_length (original perturbed : list (F * F)) :
  length perturbed = length original ->
  length (write_geographic_coordinates_with_original original perturbed)
  = S (length original).
Proof.
  intros Hlen. unfold write_geographic_coordinates_with_original.
  cbn [length]. rewrite length_map, length_combine, Hlen.
  rewrite Nat.min_id. reflexivity.
Qed.

Lemma rows_nth (original perturbed : list (F * F)) (i : nat) :
  length perturbed = length original ->
  i < length original ->
  nth (S i) (write_geographic_coordinates_with_original original perturbed)
      EmptyString
  = original_row (nth i original origin) (nth i perturbed origin).
Proof.
  intros Hlen Hi. unfold write_geographic_coordinates_with_original.
  cbn [nth].
  set (row := fun op : (F * F) * (F * F) => original_row (fst op) (snd op)).
  rewrite nth_indep with (d' := row (origin, origin))
    by (rewrite length_map, length_combine, Hlen, Nat.min_id; exact Hi).
  rewrite (map_nth row (combine original perturbed) (origin, origin) i).
  rewrite combine_nth by (symmetry; exact Hlen). reflexivity.
Qed.

(** C9: when a file has been processed, the perturbed sequence has
    one entry per coordinate read, in the same order: its entry of
    index [i] is the perturbation of the coordinate of index [i]
    (in the world the loop had reached), and with the originals
    included the file has one row per coordinate after the header,
    the row of index [i] being the text of line 53: the latitude and
    the longitude of the coordinate of index [i], then the latitude
    and the longitude of the perturbed entry of index [i], separated
    by commas and ended by a line feed. *)
Theorem batch_order_preserving (file_name content : string) (epsilon : F)
    (include_original : bool) (w w' : World F)
    (out : string * list string) :
  process_file file_name content epsilon include_original w = (inr out, w') ->
  exists perturbed : list (F * F),
    perturb_loop (read_geographic_coordinates content) epsilon [] w
    = (inr perturbed, w')
    /\ length perturbed = length (read_geographic_coordinates content)
    /\ (forall i : nat,
           i < length (read_geographic_coordinates content) ->
           fst (add_privacy_noise_to_geographic_coordinate
                  (fst (nth i (read_geographic_coordinates content) origin))
                  (snd (nth i (read_geographic_coordinates content) origin))
                  epsilon
                  (world_at (read_geographic_coordinates content)
                            epsilon w i))
           = inr (nth i perturbed origin))
    /\ (include_original = true ->
        length (snd out) = S (length (read_geographic_coordinates content))
        /\ forall i : nat,
            i < length (read_geographic_coordinates content) ->
            nth (S i) (snd out) EmptyString
            = (fstr (snd (nth i (read_geographic_coordinates content) origin))
               ++ ","
               ++ fstr (fst (nth i (read_geographic_coordinates content)
                                  origin))
               ++ ","
               ++ fstr (snd (nth i perturbed origin))
               ++ ","
               ++ fstr (fst (nth i perturbed origin))
               ++ newline)%string).
Proof.
  unfold process_file, bind. intros Hrun.
  destruct (perturb_loop (read_geographic_coordinates content) epsilon [] w)
    as [[e | ps] w1] eqn:Hloop; [discriminate |].
  destruct (Str.splitext file_name) as [base ext].
  unfold ret in Hrun. injection Hrun as Hout Hw. subst w1.
  destruct (loop_result _ _ _ _ _ _ Hloop) as (qs & Hps & Hlen & Hnth).
  cbn [app] in Hps. subst qs.
  exists ps. split; [reflexivity | split; [exact Hlen | split]].
  - exact Hnth.
  - intros Hinc. subst include_original out. cbn [snd].
    split; [apply rows_length; exact Hlen |].
    intros i Hi. rewrite rows_nth by assumption.
    destruct (nth i (read_geographic_coordinates content) origin)
      as [orig_lon orig_lat].
    destruct (nth i ps origin) as [pert_lon pert_lat]. reflexivity.
Qed.

(** A run over a directory writes one file per regular file. *)
Lemma dataset_files (input_directory : list (string * option string))
    (epsilon : F) (include_original : bool) :
  forall (w w' : World F) (outs : list (string * list string)),
    process_privacy_dataset input_directory epsilon include_original w
    = (inr outs, w') ->
    length outs
    = length (filter (fun entry : string * option string =>
                        match snd entry with
                        | Some _ => true
                        | None => false
                        end)
                     input_directory).
Proof.
  induction input_directory as [| [name [content |]] rest IH];
    intros w w' outs Hrun.
  - cbn in Hrun. injection Hrun as <- _. reflexivity.
  - cbn [process_privacy_dataset] in Hrun. unfold bind at 1 in Hrun.
    destruct (process_file name content epsilon include_original w)
      as [[e | out] w1]; [discriminate |].
    unfold bind at 1 in Hrun.
    destruct (process_privacy_dataset rest epsilon include_original w1)
      as [[e | outs'] w2] eqn:Hrest; [discriminate |].
    cbn in Hrun. injection Hrun as <- _.
    cbn [filter snd length]. f_equal. apply (IH _ _ _ Hrest).
  - cbn [process_privacy_dataset] in Hrun. cbn [filter snd].
    apply (IH _ _ _ Hrun).
Qed.
End BatchFacts.

(** * The reader *)

Section ReaderFacts.
Context {F : Type} {FL : PyFloat F} {FT : FloatText F}.

Lemma read_fold (lines : list string) :
  forall acc : list (F * F),
    fold_left
      (fun coordinates line =>
         match read_line line with
         | Some c => coordinates ++ [c]
         | None => coordinates
         end)
      lines acc
    = acc ++ flat_map kept lines.
Proof.
  induction lines as [| line rest IH]; intros acc; cbn [fold_left flat_map].
  - rewrite app_nil_r. reflexivity.
  - rewrite IH. unfold kept at 2.
    destruct (read_line line); [rewrite <- app_assoc |]; reflexivity.
Qed.

(** The coordinates read are those of the lines kept, in order. *)
Lemma read_by_line (content : string) :
  read_geographic_coordinates content
  = flat_map kept (Str.splitlines (Str.strip content)).
Proof. unfold read_geographic_coordinates. apply read_fold. Qed.

Lemma read_member (content : string) (c : F * F) :
  In c (read_geographic_coordinates content) <->
  exists line : string,
    In line (Str.splitlines (Str.strip content)) /\ read_line line = Some c.
Proof.
  rewrite read_by_line, in_flat_map. unfold kept.
  split; intros (line & Hin & Hc); exists line; split; try exact Hin.
  - destruct (read_line line) as [c' |]; [| contradiction].
    destruct Hc as [-> | []]. reflexivity.
  - rewrite Hc. left. reflexivity.
Qed.

(** A line that is kept failed each of the four tests of line 34. *)
Lemma read_line_tests (line : string) (lon lat : F) :
  read_line line = Some (lon, lat) ->
  flt lon (of_int (-180)) = false /\ flt (of_int 180) lon = false
  /\ flt lat (of_int (-90)) = false /\ flt (of_int 90) lat = false.
Proof.
  unfold read_line.
  destruct (negb (Nat.eqb (List.length (Str.split "," line)) 2)
            || Str.is_empty (Str.strip (nth 0 (Str.split "," line) ""%string))
            || Str.is_empty (Str.strip (nth 1 (Str.split "," line) ""%string)));
    [discriminate |].
  destruct (float_of_str _) as [lon' |]; [| discriminate].
  destruct (float_of_str _) as [lat' |]; [| discriminate].
  destruct (flt lon' (of_int (-180))) eqn:H1; [discriminate |].
  destruct (flt (of_int 180) lon') eqn:H2; [discriminate |].
  destruct (flt lat' (of_int (-90))) eqn:H3; [discriminate |].
  destruct (flt (of_int 90) lat') eqn:H4; [discriminate |].
  cbn [orb]. intros E. injection E as -> ->. repeat split; assumption.
Qed.
End ReaderFacts.

(** In exact arithmetic a number that fails the four tests is within
    the bounds. *)
Lemma exact_reader_in_range (FT : FloatText R) (content : string)
    (lon lat : R) :
  In (lon, lat) (@read_geographic_coordinates R Exact.arith FT content) ->
  (-180 <= lon <= 180 /\ -90 <= lat <= 90)%R.
Proof.
  intros Hin. apply read_member in Hin. destruct Hin as (line & _ & Hline).
  apply read_line_tests in Hline. cbn in Hline. unfold Exact.ltb in Hline.
  destruct Hline as (H1 & H2 & H3 & H4).
  destruct (Rlt_dec lon (-180)); [discriminate |].
  destruct (Rlt_dec 180 lon); [discriminate |].
  destruct (Rlt_dec lat (-90)); [discriminate |].
  destruct (Rlt_dec 90 lat); [discriminate |].
  lra.
Qed.

(** * The reader in binary64 *)

Module B64Facts.
Local Open Scope float_scope.

Lemma compare_swap (a b : spec_float) :
  SFcompare b a = option_map CompOpp (SFcompare a b).
Proof.
  destruct a as [sa | sa | | sa ma ea], b as [sb | sb | | sb mb eb];
    cbn; try reflexivity;
    try (destruct sa; reflexivity); try (destruct sb; reflexivity);
    try (destruct sa, sb; reflexivity).
  assert (Hm : Pos.compare_cont Eq mb ma
               = CompOpp (Pos.compare_cont Eq ma mb))
    by (rewrite Pos.compare_cont_antisym; reflexivity).
  destruct sa, sb; try reflexivity;
    rewrite (Z.compare_antisym ea eb);
    destruct (ea ?= eb)%Z; cbn; try reflexivity;
    rewrite Hm; destruct (Pos.compare_cont Eq ma mb); reflexivity.
Qed.

Lemma nan_view (x : float) :
  Prim2SF x = S754_nan -> PrimFloat.is_nan x = true.
Proof.
  intros H. unfold PrimFloat.is_nan. rewrite FloatAxioms.eqb_spec, H.
  reflexivity.
Qed.

(** [x < y] is false only when [y <= x] or one of the two is nan. *)
Lemma ltb_false (x y : float) :
  (x <? y) = false ->
  PrimFloat.is_nan x = true \/ PrimFloat.is_nan y = true \/ (y <=? x) = true.
Proof.
  rewrite FloatAxioms.ltb_spec, FloatAxioms.leb_spec. unfold SFltb, SFleb.
  rewrite (compare_swap (Prim2SF x) (Prim2SF y)).
  destruct (Prim2SF x) eqn:Hx; try (intros _; left; apply nan_view; exact Hx);
    destruct (Prim2SF y) eqn:Hy;
    try (intros _; right; left; apply nan_view; exact Hy);
    destruct (SFcompare _ _) as [[| |] |] eqn:Hc; cbn;
    intros H; try discriminate H; try (right; right; reflexivity);
    cbn in Hc; discriminate Hc.
Qed.

Section Reader.
Variables libm_sin libm_cos : float -> float.
Context {FT : FloatText float}.

(** What the reader guarantees in binary64: each component is
    within its bounds or is nan. *)
Lemma reader_range (content : string) (lon lat : float) :
  In (lon, lat)
     (@read_geographic_coordinates float (B64.arith libm_sin libm_cos)
        FT content) ->
  (PrimFloat.is_nan lon = true \/ B64.in_bounds (-180) lon 180 = true)
  /\ (PrimFloat.is_nan lat = true \/ B64.in_bounds (-90) lat 90 = true).
Proof.
  intros Hin. apply read_member in Hin. destruct Hin as (line & _ & Hline).
  apply read_line_tests in Hline. cbn in Hline.
  destruct Hline as (H1 & H2 & H3 & H4).
  apply ltb_false in H1, H2, H3, H4. unfold B64.in_bounds.
  split.
  - destruct H1 as [H1 | [H1 | H1]]; [left; exact H1 | discriminate H1 |].
    destruct H2 as [H2 | [H2 | H2]]; [discriminate H2 | left; exact H2 |].
    right. change (B64.int_to_float (-180)) with (-180) in H1.
    change (B64.int_to_float 180) with 180 in H2.
    rewrite H1, H2. reflexivity.
  - destruct H3 as [H3 | [H3 | H3]]; [left; exact H3 | discriminate H3 |].
    destruct H4 as [H4 | [H4 | H4]]; [discriminate H4 | left; exact H4 |].
    right. change (B64.int_to_float (-90)) with (-90) in H3.
    change (B64.int_to_float 90) with 90 in H4.
    rewrite H3, H4. reflexivity.
Qed.
End Reader.
End B64Facts.

(** * Fixed runs *)

Module Runs64.
Import Fixture.
Local Open Scope float_scope.
#[local] Existing Instance B64.table_arith.
#[local] Existing Instance B64.table_text.
#[local] Existing Instance source64.

(** C4 fails at [epsilon = -1]: the sampler returns an offset, of
    radius -1 for a Lambert W value of -2. *)
Lemma negative_budget_returns_offset :
  fst (@sample_offset float _ (always (-2, 0)) _ (-1) start64)
  = inr (-1, 0).
Proof. vm_compute. reflexivity. Qed.

Lemma zero_budget_raises :
  fst (@sample_offset float _ (always (-2, 0)) _ 0 start64)
  = inl ZeroDivisionError
  /\ fst (@sample_offset float _ (always (-2, 0)) _ (-0) start64)
     = inl ZeroDivisionError.
Proof. split; vm_compute; reflexivity. Qed.

(** C5 fails at the latitude 90: the cosine of [radians(90)] is
    [6.123233995736766e-17], and the coordinate returned for the
    offset [(1, 0)] has the longitude [146705348124.28467]. *)
Lemma pole_returns_coordinate :
  fst (@add_privacy_noise_to_geographic_coordinate float _
         (always (-2, 0)) _ 0 90 1 start64)
  = inr (0x1.11428fb0e2470p+37, 90).
Proof. vm_compute. reflexivity. Qed.

Lemma south_pole_returns_coordinate :
  fst (@add_privacy_noise_to_geographic_coordinate float _
         (always (-2, 0)) _ 0 (-90) 1 start64)
  = inr (0x1.11428fb0e2470p+37, -90).
Proof. vm_compute. reflexivity. Qed.

(** C6 fails for a Lambert W value of [-2 + 1j]: the imaginary part
    is above the tolerance and the sampler returns the radius 1. *)
Lemma imaginary_part_dropped :
  (lit_1e_8 <? snd (@lambertw float (always (-2, 1))
                      (fdiv (fsub 0.5 1) math_e) (-1) lit_1e_8)) = true
  /\ fst (@sample_offset float _ (always (-2, 1)) _ 1 start64)
     = inr (1, 0).
Proof. split; vm_compute; reflexivity. Qed.

(** Nothing is clamped in binary64 either. *)
Lemma antimeridian_crossed :
  perturb (180, 0) (111320, 0) = inr (181, 0).
Proof. vm_compute. reflexivity. Qed.

(** C10 fails at the line [nan,nan]: it is kept, and nan is not
    within the bounds. *)
Lemma reader_keeps_nan :
  read_geographic_coordinates "nan,nan" = [(nan, nan)]
  /\ B64.in_bounds (-180) nan 180 = false
  /\ B64.in_bounds (-90) nan 90 = false.
Proof. repeat split; vm_compute; reflexivity. Qed.

(** The bounds are inclusive, and lines out of range or malformed
    are dropped. *)
Lemma reader_keeps_bounds :
  read_geographic_coordinates
    ("0,90" ++ newline ++ " -180 , -90 " ++ newline ++ "180,0" ++ newline)
  = [(0, 90); (-180, -90); (180, 0)].
Proof. vm_compute. reflexivity. Qed.

Lemma reader_drops :
  read_geographic_coordinates
    ("181,0" ++ newline ++ "0,91" ++ newline ++ "abc" ++ newline
     ++ "0,0,0" ++ newline ++ ",0" ++ newline ++ "x,0" ++ newline)
  = [].
Proof. vm_compute. reflexivity. Qed.

(** The run at the latitude 90, by [pole_not_detected]. *)
Lemma pole_not_detected_witness :
  fst (@add_privacy_noise_to_geographic_coordinate float _
         (always (-2, 0)) _ 0 90 1 start64)
  = inr (fadd 0 (fdiv (fmul 1 1) (fmul (of_int 111320) 0x1.1a62633145c07p-54)),
         fadd 90 (fdiv (fmul 1 0) (of_int 111320))).
Proof.
  apply (pole_not_detected (always (-2, 0)) 0 90 1 start64 1 0 0 1
           0x1.1a62633145c07p-54);
    vm_compute; reflexivity.
Defined.

(** The values [-2 + 1j] and [-2 + 0j] give the same run. *)
Lemma imaginary_part_ignored_witness :
  @generate_isotropic_laplace_noise_offset float _ (always (-2, 1)) _
    1 start64
  = @generate_isotropic_laplace_noise_offset float _ (always (-2, 0)) _
      1 start64
  /\ fst (@generate_isotropic_laplace_noise_offset float _ (always (-2, 1)) _
            1 start64)
     <> inl NumericInversionFailure.
Proof.
  apply (imaginary_part_ignored (always (-2, 1)) (always (-2, 0)) 1 start64).
  intros z k tol. reflexivity.
Defined.

(** Two runs from different states of the generators, same offset. *)
Lemma perturb_deterministic_witness :
  fst (@add_privacy_noise_to_geographic_coordinate float _
         (always (-2, 0)) _ 180 0 1 start64)
  = fst (@add_privacy_noise_to_geographic_coordinate float _
           (always (-2, 0)) _ 180 0 1 later64)
  /\ fst (@add_privacy_noise_to_geographic_coordinate float _
            (always (-2, 0)) _ 180 0 1 start64)
     = perturb (180, 0) (1, 0)
  /\ snd (@add_privacy_noise_to_geographic_coordinate float _
            (always (-2, 0)) _ 180 0 1 start64)
     = snd (@sample_offset float _ (always (-2, 0)) _ 1 start64).
Proof.
  apply (perturb_deterministic (always (-2, 0)) 180 0 1 1 start64 later64
           (1, 0));
    vm_compute; reflexivity.
Defined.

(** A file of two lines, with the radius 111320 and the angle 0: each
    point moves one degree east, and the two rows pair the points in
    the order of the lines. *)
Lemma batch_order_preserving_witness :
  exists perturbed : list (float * float),
    @perturb_loop float _ (always (-111321, 0)) _
      (read_geographic_coordinates two_lines) 1 [] start64
    = (inr perturbed, @mkWorld float source64 2%nat 2%nat)
    /\ perturbed = [(1, 0); (181, 0)]
    /\ snd (result_or (EmptyString, [])
              (fst (@process_file float _ _ (always (-111321, 0)) _
                      "a.csv"%string two_lines 1 true start64)))
       = [("Latitude,Longitude,Perturbed Latitude,Perturbed Longitude"
             ++ newline)%string;
          ("0.0,0.0,0.0,1.0" ++ newline)%string;
          ("0.0,180.0,0.0,181.0" ++ newline)%string].
Proof.
  destruct (@batch_order_preserving float _ _ (always (-111321, 0)) _
              "a.csv"%string two_lines 1 true start64
              (@mkWorld float source64 2%nat 2%nat)
              (result_or (EmptyString, [])
                 (fst (@process_file float _ _ (always (-111321, 0)) _
                         "a.csv"%string two_lines 1 true start64))))
    as (ps & Hloop & Hlen & Hnth & Hrows).
  - vm_compute. reflexivity.
  - destruct (Hrows eq_refl) as [Hrl Hrow].
    assert (H0 : (0 < length (@read_geographic_coordinates float _ _
                                two_lines))%nat)
      by (vm_compute; repeat constructor).
    assert (H1 : (1 < length (@read_geographic_coordinates float _ _
                                two_lines))%nat)
      by (vm_compute; repeat constructor).
    assert (E0 : @inr exn (float * float) (1, 0) = inr (nth 0 ps origin))
      by (rewrite <- (Hnth 0%nat H0); vm_compute; reflexivity).
    assert (E1 : @inr exn (float * float) (181, 0) = inr (nth 1 ps origin))
      by (rewrite <- (Hnth 1%nat H1); vm_compute; reflexivity).
    injection E0 as E0. injection E1 as E1.
    assert (Eps : ps = [(1, 0); (181, 0)]).
    { destruct ps as [| a [| b [| c rest]]]; try discriminate Hlen.
      cbn [nth] in E0, E1. subst a b. reflexivity. }
    exists ps. split; [exact Hloop | split; [exact Eps |]].
    pose proof (Hrow 0%nat H0) as R0. pose proof (Hrow 1%nat H1) as R1.
    rewrite <- E0 in R0. rewrite <- E1 in R1.
    remember (snd (result_or (EmptyString, [])
                     (fst (@process_file float _ _ (always (-111321, 0)) _
                             "a.csv"%string two_lines 1 true start64))))
      as rows eqn:Erows.
    assert (Hh : nth 0 rows EmptyString
                 = ("Latitude,Longitude,Perturbed Latitude,Perturbed Longitude"
                      ++ newline)%string)
      by (subst rows; vm_compute; reflexivity).
    clear Erows.
    destruct rows as [| h [| r0 [| r1 [| r2 rest]]]]; try discriminate Hrl.
    cbn [nth] in Hh, R0, R1. subst h r0 r1. vm_compute. reflexivity.
Defined.
End Runs64.

Module RunsExact.
Import Fixture Contract ExactFacts ExactPerturbation.
Local Open Scope R_scope.
#[local] Existing Instance Exact.arith.
#[local] Existing Instance sourceR.

Lemma replay_in_range : @uniform_in_range sourceR.
Proof. intros low high s Hlt. cbn. lra. Qed.

Lemma exact_on_branch : @on_branch Branch.exact.
Proof. intros z tol Hz. cbn. apply BranchFacts.W_m1_spec. exact Hz. Qed.

Lemma drawn_p_half : drawn_p startR = 1 / 2.
Proof. reflexivity. Qed.

Lemma drawn_angle_zero : drawn_angle startR = 0.
Proof. unfold drawn_angle. cbn. lra. Qed.

(** With [W = -2] and the budget 1 the radius is 1. *)
Lemma sampler_inversion_witness :
  fst (@generate_isotropic_laplace_noise_offset R _ (always (-2, 0)) _
         1 startR)
  = inr (1, 0).
Proof.
  destruct (@sampler_inversion (always (-2, 0)) sourceR 1 startR)
    as [Hrun _]; [lra |].
  rewrite Hrun, drawn_angle_zero. cbn [lambertw always fst].
  f_equal. f_equal. field.
Defined.

(** The run with [p = 1/2], the budget 1 and the exact branch. *)
Lemma sampler_range_witness :
  exists r theta : R,
    fst (@sample_offset R _ Branch.exact _ 1 startR) = inr (r, theta)
    /\ 0 <= r /\ 0 <= theta < 2 * PI.
Proof.
  apply (@sampler_range Branch.exact sourceR 1 startR).
  - exact replay_in_range.
  - exact exact_on_branch.
  - lra.
  - rewrite drawn_p_half. lra.
Defined.

(** With [p = 1/2] and the exact branch the radius is [c / epsilon]. *)
Lemma radius_inverse_in_budget_witness :
  0 <= @c_of Branch.exact (1 / 2)
  /\ forall epsilon : R,
      epsilon <> 0 ->
      fst (@generate_isotropic_laplace_noise_offset R _ Branch.exact _
             epsilon startR)
      = inr (@c_of Branch.exact (1 / 2) / epsilon, 0).
Proof.
  destruct (@radius_inverse_in_budget Branch.exact sourceR 0 0 startR)
    as (Hc & Hrun & _).
  - exact exact_on_branch.
  - rewrite drawn_p_half. lra.
  - rewrite drawn_p_half in Hc, Hrun. rewrite drawn_angle_zero in Hrun.
    split; assumption.
Defined.

(** For a budget of zero the sampler raises; for a negative one it
    returns a radius that is not positive. *)
Lemma budget_cases (SP : SciPy R) (RS : RandomSource R)
    (epsilon : R) (w : World R) :
  (epsilon = 0 ->
   fst (sample_offset epsilon w) = inl ZeroDivisionError)
  /\ (epsilon < 0 -> on_branch -> 0 <= drawn_p w < 1 ->
      exists r : R,
        fst (sample_offset epsilon w) = inr (r, drawn_angle w) /\ r <= 0).
Proof.
  split.
  - intros ->. unfold sample_offset. rewrite sampler_run, zero_budget.
    reflexivity.
  - intros He Hb Hp.
    assert (Hrun := exact_run epsilon w ltac:(lra)).
    eexists. split; [exact Hrun |].
    pose proof (c_of_nonneg (drawn_p w) Hb Hp) as Hc. unfold c_of in Hc.
    assert (Hi : 1 / epsilon < 0).
    { unfold Rdiv. rewrite Rmult_1_l. apply Rinv_lt_0_compat. exact He. }
    nra.
Qed.

(** In exact arithmetic the loop over the coordinates returns for
    every budget other than zero. *)
Lemma loop_returns (SP : SciPy R) (RS : RandomSource R)
    (coordinates : list (R * R)) (epsilon : R) :
  epsilon <> 0 ->
  forall (acc : list (R * R)) (w : World R),
  exists (ps : list (R * R)) (w' : World R),
    perturb_loop coordinates epsilon acc w = (inr ps, w').
Proof.
  intros He. induction coordinates as [| c rest IH]; intros acc w.
  - exists acc, w. reflexivity.
  - rewrite loop_step.
    destruct (run_with_c (fst c) (snd c) epsilon w He) as [_ Hrun].
    destruct (add_privacy_noise_to_geographic_coordinate
                (fst c) (snd c) epsilon w) as [res w1].
    cbn [fst] in Hrun. subst res. apply IH.
Qed.
End RunsExact.

(** * More on the batch: draws, exceptions, files written *)

Section BatchMore.
Context {F : Type} {FL : PyFloat F} {FT : FloatText F}.
Context {SP : SciPy F} {RS : RandomSource F}.

Lemma add_noise_world (longitude latitude epsilon : F) (w : World F) :
  snd (add_privacy_noise_to_geographic_coordinate longitude latitude epsilon w)
  = after_draws w.
Proof. rewrite add_noise_run. cbn [snd]. apply sampler_world. Qed.

Lemma add_noise_value (longitude latitude epsilon : F) (w : World F) :
  fst (add_privacy_noise_to_geographic_coordinate longitude latitude epsilon w)
  = if feq0 epsilon then inl ZeroDivisionError
    else perturb (longitude, latitude)
           (radius_of epsilon (drawn_p w), drawn_angle w).
Proof.
  rewrite add_noise_run. cbn [fst]. rewrite sampler_run. cbn [fst].
  destruct (feq0 epsilon); reflexivity.
Qed.

Lemma world_at_iter (coordinates : list (F * F)) (epsilon : F) :
  forall (w : World F) (i : nat),
    i <= length coordinates ->
    world_at coordinates epsilon w i = Nat.iter i after_draws w.
Proof.
  induction coordinates as [| c rest IH]; intros w i Hi.
  - cbn [length] in Hi. assert (i = 0) by lia. subst i. reflexivity.
  - destruct i as [| j]; [reflexivity |].
    cbn [world_at]. rewrite add_noise_world, IH by (cbn [length] in Hi; lia).
    symmetry. apply Nat.iter_succ_r.
Qed.

Lemma loop_world (coordinates : list (F * F)) (epsilon : F) :
  forall (acc ps : list (F * F)) (w w' : World F),
    perturb_loop coordinates epsilon acc w = (inr ps, w') ->
    w' = Nat.iter (length coordinates) after_draws w.
Proof.
  induction coordinates as [| c rest IH]; intros acc ps w w' Hrun.
  - cbn in Hrun. injection Hrun as _ <-. reflexivity.
  - rewrite loop_step in Hrun.
    pose proof (add_noise_world (fst c) (snd c) epsilon w) as Hw.
    destruct (add_privacy_noise_to_geographic_coordinate
                (fst c) (snd c) epsilon w) as [[e | p] w1];
      [discriminate |].
    cbn [snd] in Hw. subst w1.
    rewrite (IH _ _ _ _ Hrun). cbn [length].
    symmetry. apply Nat.iter_succ_r.
Qed.

(** X1: when the loop over the coordinates of a file returns, it has
    drawn once from each generator per coordinate, whatever the
    coordinates and the budget are, and the perturbed coordinate of
    index [i] is [perturb] of the coordinate of index [i] and of the
    offset of the sampler's call of index [i]: no coordinate
    influences the noise of another one. *)
Theorem batch_closed_form (coordinates ps : list (F * F)) (epsilon : F)
    (w w' : World F) :
  perturb_loop coordinates epsilon [] w = (inr ps, w') ->
  w' = Nat.iter (length coordinates) after_draws w
  /\ length ps = length coordinates
  /\ forall i : nat,
      i < length coordinates ->
      perturb (nth i coordinates origin) (offset_at epsilon w i)
      = inr (nth i ps origin).
Proof.
  intros Hrun. split; [exact (loop_world _ _ _ _ _ _ Hrun) |].
  destruct (loop_result _ _ _ _ _ _ Hrun) as (qs & Hps & Hlen & Hnth).
  cbn [app] in Hps. subst qs. split; [exact Hlen |].
  intros i Hi. specialize (Hnth i Hi).
  rewrite add_noise_value, world_at_iter in Hnth by lia.
  destruct (feq0 epsilon); [discriminate |].
  destruct (nth i coordinates origin) as [lon lat]. exact Hnth.
Qed.
Lemma add_noise_raises (longitude latitude epsilon : F) (w : World F)
    (e : exn) :
  fst (add_privacy_noise_to_geographic_coordinate longitude latitude epsilon w)
  = inl e ->
  (e = ZeroDivisionError /\ feq0 epsilon = true) \/ e = ValueError.
Proof.
  rewrite add_noise_value. destruct (feq0 epsilon).
  - intros H. injection H as <-. left. split; reflexivity.
  - unfold perturb.
    destruct (math_sin _); [| intros H; injection H as <-; right; reflexivity].
    destruct (math_cos _); [| intros H; injection H as <-; right; reflexivity].
    destruct (math_cos _); [discriminate |].
    intros H; injection H as <-; right; reflexivity.
Qed.

Lemma loop_raises (coordinates : list (F * F)) (epsilon : F) :
  forall (acc : list (F * F)) (w w' : World F) (e : exn),
    perturb_loop coordinates epsilon acc w = (inl e, w') ->
    (e = ZeroDivisionError /\ feq0 epsilon = true) \/ e = ValueError.
Proof.
  induction coordinates as [| c rest IH]; intros acc w w' e Hrun.
  - discriminate Hrun.
  - rewrite loop_step in Hrun.
    pose proof (add_noise_raises (fst c) (snd c) epsilon w) as Hc.
    destruct (add_privacy_noise_to_geographic_coordinate
                (fst c) (snd c) epsilon w) as [[e1 | p] w1].
    + injection Hrun as <- _. apply Hc. reflexivity.
    + apply (IH _ _ _ _ Hrun).
Qed.

Lemma file_run (file_name content : string) (epsilon : F)
    (include_original : bool) (w : World F) :
  process_file file_name content epsilon include_original w
  = match perturb_loop (read_geographic_coordinates content) epsilon [] w with
    | (inl e, w') => (inl e, w')
    | (inr ps, w') =>
      (inr (output_name epsilon file_name,
            if include_original
            then write_geographic_coordinates_with_original
                   (read_geographic_coordinates content) ps
            else write_geographic_coordinates ps),
       w')
    end.
Proof.
  unfold process_file, bind, output_name.
  destruct (perturb_loop (read_geographic_coordinates content) epsilon [] w)
    as [[e | ps] w']; [reflexivity |].
  destruct (Str.splitext file_name) as [base ext]. reflexivity.
Qed.

Lemma dataset_step (file_name content : string)
    (rest : list (string * option string)) (epsilon : F)
    (include_original : bool) (w : World F) :
  process_privacy_dataset ((file_name, Some content) :: rest)
    epsilon include_original w
  = match process_file file_name content epsilon include_original w with
    | (inl e, w1) => (inl e, w1)
    | (inr out, w1) =>
      match process_privacy_dataset rest epsilon include_original w1 with
      | (inl e, w2) => (inl e, w2)
      | (inr outs, w2) => (inr (out :: outs), w2)
      end
    end.
Proof.
  cbn [process_privacy_dataset]. unfold bind at 1.
  destruct (process_file file_name content epsilon include_original w)
    as [[e | out] w1]; [reflexivity |].
  unfold bind.
  destruct (process_privacy_dataset rest epsilon include_original w1)
    as [[e | outs] w2]; reflexivity.
Qed.

(** X2: the computation of a run over a directory (reading the lines,
    sampling, perturbing, formatting) can only raise ZeroDivisionError,
    and then the budget is zero, or the ValueError of [math.sin] or
    [math.cos]; a line that is malformed or out of range never raises.
    (The errors of the file system are outside the model.) *)
Theorem dataset_raises_only (input_directory : list (string * option string))
    (epsilon : F) (include_original : bool) (w w' : World F) (e : exn) :
  process_privacy_dataset input_directory epsilon include_original w
  = (inl e, w') ->
  (e = ZeroDivisionError /\ feq0 epsilon = true) \/ e = ValueError.
Proof.
  revert w w'.
  induction input_directory as [| [name [content |]] rest IH];
    intros w w' Hrun.
  - discriminate Hrun.
  - rewrite dataset_step, file_run in Hrun.
    destruct (perturb_loop (read_geographic_coordinates content) epsilon [] w)
      as [[e1 | ps] w1] eqn:Hloop.
    + injection Hrun as <- _. apply (loop_raises _ _ _ _ _ _ Hloop).
    + destruct (process_privacy_dataset rest epsilon include_original w1)
        as [[e2 | outs] w2] eqn:Hrest; [| discriminate].
      injection Hrun as <- _. apply (IH _ _ Hrest).
  - apply (IH _ _ Hrun).
Qed.
Lemma header_only (include_original : bool) :
  (if include_original
   then write_geographic_coordinates_with_original [] []
   else write_geographic_coordinates [])
  = [header include_original].
Proof. destruct include_original; reflexivity. Qed.

(** X3: a file none of whose lines is kept is written with its header
    alone, under the name with [_eps] and the budget before the
    extension; the sampler is not called, so no generator moves and
    nothing is raised, even for a budget of zero. *)
Theorem file_without_coordinates (file_name content : string) (epsilon : F)
    (include_original : bool) (w : World F) :
  read_geographic_coordinates content = [] ->
  process_file file_name content epsilon include_original w
  = (inr (output_name epsilon file_name, [header include_original]), w).
Proof.
  intros Hread. rewrite file_run, Hread. cbn [perturb_loop]. unfold ret.
  rewrite header_only. reflexivity.
Qed.

Lemma file_zero_budget (file_name content : string) (epsilon : F)
    (include_original : bool) (w : World F) :
  feq0 epsilon = true ->
  read_geographic_coordinates content <> [] ->
  process_file file_name content epsilon include_original w
  = (inl ZeroDivisionError, after_draws w).
Proof.
  intros Hz Hread. rewrite file_run.
  destruct (read_geographic_coordinates content) as [| c rest];
    [now elim Hread |].
  rewrite loop_step.
  pose proof (add_noise_value (fst c) (snd c) epsilon w) as Hv.
  pose proof (add_noise_world (fst c) (snd c) epsilon w) as Hw.
  rewrite Hz in Hv.
  destruct (add_privacy_noise_to_geographic_coordinate
              (fst c) (snd c) epsilon w) as [res w1].
  cbn [fst snd] in Hv, Hw. subst res w1. reflexivity.
Qed.

(** X4: with a budget of zero, a run over a directory raises
    ZeroDivisionError as soon as one regular file holds a line that
    is kept; when no file does, it returns, every file written holds
    its header alone and no generator has moved. *)
Theorem zero_budget_run (input_directory : list (string * option string))
    (epsilon : F) (include_original : bool) (w : World F) :
  feq0 epsilon = true ->
  fst (process_privacy_dataset input_directory epsilon include_original w)
  = (if no_coordinates input_directory
     then inr (map (fun file : string * string =>
                      (output_name epsilon (fst file),
                       [header include_original]))
                   (regular_files input_directory))
     else inl ZeroDivisionError)
  /\ (no_coordinates input_directory = true ->
      snd (process_privacy_dataset input_directory epsilon include_original w)
      = w).
Proof.
  intros Hz.
  induction input_directory as [| [name [content |]] rest IH].
  - split; reflexivity.
  - rewrite dataset_step.
    unfold no_coordinates in *. cbn [regular_files flat_map snd fst app] in *.
    cbn [forallb map snd fst].
    destruct (read_geographic_coordinates content) as [| c cs] eqn:Hread.
    + rewrite file_run, Hread.
      change (perturb_loop [] epsilon [] w)
        with (@pair (exn + list (F * F)) (World F) (inr []) w).
      cbn iota. rewrite header_only. cbn [andb]. destruct IH as [IHv IHw].
      destruct (process_privacy_dataset rest epsilon include_original w)
        as [[e | outs] w2]; cbn [fst snd] in *.
      * destruct (forallb _ _); [discriminate IHv |].
        split; [exact IHv | discriminate].
      * destruct (forallb _ _); [| discriminate IHv].
        injection IHv as ->. split; [reflexivity | exact IHw].
    + rewrite file_zero_budget by (try assumption; rewrite Hread; discriminate).
      cbn [andb fst snd]. split; [reflexivity | discriminate].
  - cbn [process_privacy_dataset].
    unfold no_coordinates in *. cbn [regular_files flat_map snd fst app] in *.
    exact IH.
Qed.
Lemma perturbed_rows (coordinates : list (F * F)) :
  write_geographic_coordinates coordinates
  = header false :: map perturbed_row coordinates.
Proof.
  unfold write_geographic_coordinates, header. f_equal.
  apply map_ext. intros [lon lat]. reflexivity.
Qed.

(** X5: the file with originals pairs the two lists as [zip] does: the
    rows stop at the shorter list without any error, and the row of
    index [i] writes the latitude before the longitude, for the
    original and for the perturbed coordinate. *)
Theorem rows_stop_at_shorter (original perturbed : list (F * F)) :
  length (write_geographic_coordinates_with_original original perturbed)
  = S (Nat.min (length original) (length perturbed))
  /\ forall i : nat,
      i < Nat.min (length original) (length perturbed) ->
      nth (S i) (write_geographic_coordinates_with_original original perturbed)
          EmptyString
      = (fstr (snd (nth i original origin)) ++ ","
         ++ fstr (fst (nth i original origin)) ++ ","
         ++ fstr (snd (nth i perturbed origin)) ++ ","
         ++ fstr (fst (nth i perturbed origin)) ++ newline)%string.
Proof.
  unfold write_geographic_coordinates_with_original. split.
  - cbn [length]. rewrite length_map, length_combine. reflexivity.
  - intros i Hi. cbn [nth].
    set (row := fun op : (F * F) * (F * F) => original_row (fst op) (snd op)).
    rewrite nth_indep with (d' := row (origin, origin))
      by (rewrite length_map, length_combine; exact Hi).
    rewrite (map_nth row (combine original perturbed) (origin, origin) i).
    assert (Hc : nth i (combine original perturbed) (origin, origin)
                 = (nth i original origin, nth i perturbed origin)).
    { clear row. revert perturbed i Hi.
      induction original as [| o os IH]; intros [| q qs] i Hi;
        cbn [length Nat.min] in Hi; try lia.
      destruct i as [| j]; [reflexivity |].
      cbn [combine nth]. apply IH. lia. }
    rewrite Hc. unfold row, original_row. cbn [fst snd].
    destruct (nth i original origin), (nth i perturbed origin). reflexivity.
Qed.

(** X6: without the originals, the file written for a text holds the
    header [Longitude,Latitude] and then one row per coordinate read,
    in order: the longitude, a comma, the latitude of the perturbed
    coordinate of the same index, which is [perturb] of the coordinate
    read and of the offset of the sampler's call of that index. *)
Theorem perturbed_only_file (file_name content : string) (epsilon : F)
    (w w' : World F) (out : string * list string) :
  process_file file_name content epsilon false w = (inr out, w') ->
  exists ps : list (F * F),
    snd out = header false :: map perturbed_row ps
    /\ length ps = length (read_geographic_coordinates content)
    /\ forall i : nat,
        i < length (read_geographic_coordinates content) ->
        perturb (nth i (read_geographic_coordinates content) origin)
                (offset_at epsilon w i)
        = inr (nth i ps origin).
Proof.
  rewrite file_run. intros Hrun.
  destruct (perturb_loop (read_geographic_coordinates content) epsilon [] w)
    as [[e | ps] w1] eqn:Hloop; [discriminate |].
  injection Hrun as <- <-. exists ps. cbn [snd].
  destruct (loop_result _ _ _ _ _ _ Hloop) as (qs & Hps & Hlen & Hnth).
  cbn [app] in Hps. subst qs.
  split; [apply perturbed_rows | split; [exact Hlen |]].
  intros i Hi. specialize (Hnth i Hi).
  rewrite add_noise_value, world_at_iter in Hnth by lia.
  destruct (feq0 epsilon); [discriminate |].
  destruct (nth i (read_geographic_coordinates content) origin). exact Hnth.
Qed.

(** X7: the flag [include_original] changes what is written and
    nothing else: with and without it, a file leaves the generators
    in the same state, raises the same exception or returns, and then
    has the same name and as many rows. *)
Theorem flag_changes_rows_only (file_name content : string) (epsilon : F)
    (w : World F) :
  snd (process_file file_name content epsilon true w)
  = snd (process_file file_name content epsilon false w)
  /\ match fst (process_file file_name content epsilon true w),
           fst (process_file file_name content epsilon false w) with
     | inl e1, inl e2 => e1 = e2
     | inr out1, inr out2 =>
       fst out1 = fst out2 /\ length (snd out1) = length (snd out2)
     | _, _ => False
     end.
Proof.
  rewrite !file_run.
  destruct (perturb_loop (read_geographic_coordinates content) epsilon [] w)
    as [[e | ps] w1] eqn:Hloop; cbn [fst snd].
  - split; reflexivity.
  - split; [reflexivity | split; [reflexivity |]].
    destruct (loop_result _ _ _ _ _ _ Hloop) as (qs & Hps & Hlen & _).
    cbn [app] in Hps. subst qs.
    rewrite (rows_length _ _ Hlen), perturbed_rows. cbn [length].
    rewrite length_map, Hlen. reflexivity.
Qed.

(** X8: when a run over a directory returns, it has written one file
    per regular file of the listing, in the order of the listing and
    skipping the other entries: each under the name of its source
    with [_eps] and the budget before the extension, starting with
    the header of the mode, followed by one row per coordinate read. *)
Theorem dataset_outputs (input_directory : list (string * option string))
    (epsilon : F) (include_original : bool) (w w' : World F)
    (outs : list (string * list string)) :
  process_privacy_dataset input_directory epsilon include_original w
  = (inr outs, w') ->
  Forall2
    (fun (out : string * list string) (file : string * string) =>
       fst out = output_name epsilon (fst file)
       /\ hd EmptyString (snd out) = header include_original
       /\ length (snd out)
          = S (length (read_geographic_coordinates (snd file))))
    outs (regular_files input_directory).
Proof.
  revert w w' outs.
  induction input_directory as [| [name [content |]] rest IH];
    intros w w' outs Hrun.
  - cbn in Hrun. injection Hrun as <- _. constructor.
  - rewrite dataset_step, file_run in Hrun.
    destruct (perturb_loop (read_geographic_coordinates content) epsilon [] w)
      as [[e1 | ps] w1] eqn:Hloop; [discriminate |].
    destruct (process_privacy_dataset rest epsilon include_original w1)
      as [[e2 | outs'] w2] eqn:Hrest; [discriminate |].
    injection Hrun as <- _.
    cbn [regular_files flat_map snd fst app].
    destruct (loop_result _ _ _ _ _ _ Hloop) as (qs & Hps & Hlen & _).
    cbn [app] in Hps. subst qs.
    constructor; [| apply (IH _ _ _ Hrest)].
    cbn [fst snd]. split; [reflexivity |].
    destruct include_original.
    + split; [reflexivity | apply rows_length; exact Hlen].
    + rewrite perturbed_rows. cbn [hd length]. rewrite length_map, Hlen.
      split; reflexivity.
  - cbn [process_privacy_dataset] in Hrun.
    cbn [regular_files flat_map snd fst app]. apply (IH _ _ _ Hrun).
Qed.
End BatchMore.

(** * The text operations the reader and the driver rely on *)

Module TextFacts.
Local Open Scope string_scope.

Lemma split_nonempty (sep : ascii) (s : string) : Str.split sep s <> [].
Proof.
  destruct s as [| c s']; cbn [Str.split]; [discriminate |].
  destruct (Ascii.eqb c sep); [discriminate |].
  destruct (Str.split sep s'); discriminate.
Qed.

Lemma split_length (sep : ascii) (s : string) :
  length (Str.split sep s) = S (Text.count sep s).
Proof.
  induction s as [| c s' IH]; [reflexivity |].
  cbn [Str.split Text.count].
  destruct (Ascii.eqb c sep).
  - cbn [length]. rewrite IH. reflexivity.
  - pose proof (split_nonempty sep s') as Hne.
    destruct (Str.split sep s') as [| x xs]; [now elim Hne |].
    cbn [length] in *. rewrite IH. reflexivity.
Qed.

Lemma split_join (sep : ascii) (s : string) :
  Text.join sep (Str.split sep s) = s.
Proof.
  induction s as [| c s' IH]; [reflexivity |].
  cbn [Str.split].
  destruct (Ascii.eqb c sep) eqn:Hc.
  - apply Ascii.eqb_eq in Hc. subst c.
    pose proof (split_nonempty sep s') as Hne.
    destruct (Str.split sep s') as [| x xs]; [now elim Hne |].
    cbn [Text.join] in *. cbn [append]. rewrite IH. reflexivity.
  - pose proof (split_nonempty sep s') as Hne.
    destruct (Str.split sep s') as [| x xs]; [now elim Hne |].
    destruct xs as [| y ys]; cbn [Text.join append] in *;
      rewrite IH; reflexivity.
Qed.

Lemma split_parts (sep : ascii) (s : string) :
  Forall (fun part : string => Text.count sep part = 0) (Str.split sep s).
Proof.
  induction s as [| c s' IH]; [repeat constructor |].
  cbn [Str.split].
  destruct (Ascii.eqb c sep) eqn:Hc.
  - constructor; [reflexivity | exact IH].
  - pose proof (split_nonempty sep s') as Hne.
    destruct (Str.split sep s') as [| x xs]; [now elim Hne |].
    inversion IH as [| ? ? Hx Hxs]; subst.
    constructor; [| exact Hxs].
    cbn [Text.count]. rewrite Hc, Hx. reflexivity.
Qed.

(** X9: [split] cuts a line at each separator and nowhere else: there
    is one part more than separators, no part holds a separator, and
    the parts joined by the separator give the line back. *)
Theorem split_round_trip (sep : ascii) (s : string) :
  Text.join sep (Str.split sep s) = s
  /\ length (Str.split sep s) = S (Text.count sep s)
  /\ Forall (fun part : string => Text.count sep part = 0) (Str.split sep s).
Proof.
  split; [apply split_join | split; [apply split_length | apply split_parts]].
Qed.

Lemma lstrip_spec (s : string) :
  exists l : string,
    s = l ++ Str.lstrip s
    /\ Text.all Str.is_space l = true
    /\ Text.first_is Str.is_space (Str.lstrip s) = false.
Proof.
  induction s as [| c s' (l & Hs & Hl & Hf)].
  - exists "". repeat split.
  - cbn [Str.lstrip]. destruct (Str.is_space c) eqn:Hc.
    + exists (String c l). cbn [append Text.all]. rewrite Hc, Hl, <- Hs.
      repeat split. exact Hf.
    + exists "". cbn [append Text.all Text.first_is]. rewrite Hc.
      repeat split.
Qed.

Lemma rstrip_spec (s : string) :
  exists r : string,
    s = Str.rstrip s ++ r
    /\ Text.all Str.is_space r = true
    /\ Text.last_is Str.is_space (Str.rstrip s) = false.
Proof.
  induction s as [| c s' (r & Hs & Hr & Hl)].
  - exists "". repeat split.
  - cbn [Str.rstrip].
    destruct (Str.is_space c) eqn:Hc; cbn [andb].
    + destruct (Str.rstrip s') as [| d t] eqn:Ht; cbn [Str.is_empty].
      * exists (String c r). cbn [append Text.all] in *.
        rewrite Hc, Hr, <- Hs. repeat split.
      * exists r. split; [rewrite Hs at 1; reflexivity |].
        split; [exact Hr | exact Hl].
    + exists r. split; [rewrite Hs at 1; reflexivity |].
      split; [exact Hr |].
      destruct (Str.rstrip s') as [| d t]; cbn [Text.last_is] in *;
        [exact Hc | exact Hl].
Qed.

Lemma rstrip_first (s : string) :
  Text.first_is Str.is_space s = false ->
  Text.first_is Str.is_space (Str.rstrip s) = false.
Proof.
  destruct s as [| c s']; [reflexivity |].
  cbn [Text.first_is Str.rstrip]. intros Hc. rewrite Hc. cbn [andb].
  exact Hc.
Qed.

Lemma lstrip_fixed (s : string) :
  Text.first_is Str.is_space s = false -> Str.lstrip s = s.
Proof.
  destruct s as [| c s']; [reflexivity |].
  cbn [Text.first_is Str.lstrip]. intros ->. reflexivity.
Qed.

Lemma rstrip_fixed (s : string) :
  Text.last_is Str.is_space s = false -> Str.rstrip s = s.
Proof.
  induction s as [| c s' IH]; [reflexivity |].
  cbn [Str.rstrip]. destruct s' as [| d t].
  - cbn [Text.last_is Str.rstrip Str.is_empty]. intros ->. reflexivity.
  - intros Hl. change (Text.last_is Str.is_space (String d t) = false) in Hl.
    rewrite (IH Hl). cbn [Str.is_empty]. rewrite andb_false_r. reflexivity.
Qed.

(** X10: [strip] removes whitespace at the two ends and nothing else:
    the text is the stripped text between two runs of whitespace, the
    stripped text neither starts nor ends with whitespace, and
    stripping it again changes nothing. *)
Theorem strip_spec (s : string) :
  (exists l r : string,
      s = l ++ Str.strip s ++ r
      /\ Text.all Str.is_space l = true
      /\ Text.all Str.is_space r = true)
  /\ Text.first_is Str.is_space (Str.strip s) = false
  /\ Text.last_is Str.is_space (Str.strip s) = false
  /\ Str.strip (Str.strip s) = Str.strip s.
Proof.
  unfold Str.strip.
  destruct (lstrip_spec s) as (l & Hs & Hl & Hf).
  destruct (rstrip_spec (Str.lstrip s)) as (r & Ht & Hr & Hlast).
  pose proof (rstrip_first _ Hf) as Hf'.
  split; [| split; [exact Hf' | split; [exact Hlast |]]].
  - exists l, r. rewrite <- Ht. repeat split; assumption.
  - rewrite (lstrip_fixed _ Hf'). apply rstrip_fixed. exact Hlast.
Qed.
Lemma splitext_from_parts (s : string) :
  forall (seen : bool) (b e : string),
    Str.splitext_from seen s = (b, e) ->
    b ++ e = s
    /\ (e = "" \/ exists t : string, e = String "." t /\ Str.has_dot t = false)
    /\ (e <> "" -> seen = true \/ Text.all Text.is_dot b = false).
Proof.
  induction s as [| c s' IH]; intros seen b e Hsplit.
  - cbn in Hsplit. injection Hsplit as <- <-.
    repeat split; [left; reflexivity | intros H; now elim H].
  - cbn [Str.splitext_from] in Hsplit.
    destruct (Ascii.eqb c "." && negb (Str.has_dot s') && seen) eqn:Hcut.
    + injection Hsplit as <- <-.
      apply andb_prop in Hcut. destruct Hcut as [Hcut Hseen].
      apply andb_prop in Hcut. destruct Hcut as [Hc Hdot].
      apply Ascii.eqb_eq in Hc. subst c.
      apply negb_true_iff in Hdot.
      repeat split; [right; exists s'; split; [reflexivity | exact Hdot] |].
      intros _. left. exact Hseen.
    + destruct (Str.splitext_from (seen || negb (Ascii.eqb c ".")) s')
        as [b' e'] eqn:Hrec.
      injection Hsplit as <- <-.
      destruct (IH _ _ _ Hrec) as (Hcat & Hshape & Hbase).
      cbn [append]. rewrite Hcat.
      repeat split; [exact Hshape |].
      intros He. cbn [Text.all]. unfold Text.is_dot at 1.
      destruct (Hbase He) as [Hs | Hb].
      * destruct seen; [left; reflexivity |].
        cbn [orb] in Hs. apply negb_true_iff in Hs. rewrite Hs.
        right. reflexivity.
      * right. rewrite Hb. apply andb_false_r.
Qed.

Lemma dot_after_seen (s : string) :
  Str.has_dot s = true -> Text.dot_after_other true s = true.
Proof.
  induction s as [| c s' IH]; [discriminate |].
  cbn [Str.has_dot Text.dot_after_other]. unfold Text.is_dot.
  destruct (Ascii.eqb c "."); cbn [orb andb negb]; [reflexivity |].
  exact IH.
Qed.

Lemma splitext_from_found (s : string) :
  forall (seen : bool) (b e : string),
    Str.splitext_from seen s = (b, e) ->
    negb (Str.is_empty e) = Text.dot_after_other seen s.
Proof.
  induction s as [| c s' IH]; intros seen b e Hsplit.
  - cbn in Hsplit. injection Hsplit as <- <-. reflexivity.
  - cbn [Str.splitext_from Text.dot_after_other] in *.
    unfold Text.is_dot.
    destruct (Ascii.eqb c ".") eqn:Hc; cbn [andb orb negb] in *.
    + destruct seen; cbn [andb orb] in *.
      * destruct (Str.has_dot s') eqn:Hdot; cbn [negb] in *.
        -- destruct (Str.splitext_from true s') as [b' e'] eqn:Hrec.
           injection Hsplit as <- <-.
           rewrite (IH _ _ _ Hrec). apply dot_after_seen. exact Hdot.
        -- injection Hsplit as <- <-. reflexivity.
      * rewrite andb_false_r in Hsplit.
        destruct (Str.splitext_from false s') as [b' e'] eqn:Hrec.
        injection Hsplit as <- <-. apply (IH _ _ _ Hrec).
    + rewrite orb_true_r in *.
      destruct (Str.splitext_from true s') as [b' e'] eqn:Hrec.
      injection Hsplit as <- <-. apply (IH _ _ _ Hrec).
Qed.
End TextFacts.

(** * More on the reader and on the names of the files written *)

Section ReaderMore.
Context {F : Type} {FL : PyFloat F} {FT : FloatText F}.

Local Open Scope string_scope.

(** X11: the file written for [file_name] is named by inserting
    [_eps] and the budget between the two parts [splitext] cuts the
    name into.  The two parts make up the name; the extension is
    empty, or it is the last dot with what follows it and the base
    then holds a character other than a dot; and it is empty only
    when no dot of the name comes after a character other than a
    dot. *)
Theorem output_name_parts (epsilon : F) (file_name : string) :
  exists base ext : string,
    file_name = base ++ ext
    /\ output_name epsilon file_name = base ++ "_eps" ++ fstr epsilon ++ ext
    /\ (ext = ""
        \/ exists t : string,
            ext = String "." t /\ Str.has_dot t = false
            /\ Text.all Text.is_dot base = false)
    /\ negb (Str.is_empty ext) = Text.dot_after_other false file_name.
Proof.
  unfold output_name, Str.splitext.
  destruct (Str.splitext_from false file_name) as [base ext] eqn:Hsplit.
  destruct (TextFacts.splitext_from_parts _ _ _ _ Hsplit)
    as (Hcat & Hshape & Hbase).
  exists base, ext.
  split; [symmetry; exact Hcat | split; [reflexivity | split]].
  - destruct Hshape as [-> | (t & -> & Hdot)]; [left; reflexivity |].
    right. exists t. repeat split; try assumption.
    destruct Hbase as [Hs | Hb]; [discriminate | discriminate | exact Hb].
  - apply (TextFacts.splitext_from_found _ _ _ _ Hsplit).
Qed.

(** X12: a line is kept only if it holds exactly one comma: a line
    with no comma or with two or more is skipped whatever its fields
    are. *)
Theorem line_needs_one_comma (line : string) :
  Text.count "," line <> 1 -> read_line (F := F) line = None.
Proof.
  intros Hcount. unfold read_line.
  rewrite TextFacts.split_length.
  destruct (Text.count "," line) as [| [| n]]; [| now elim Hcount |];
    reflexivity.
Qed.

Lemma lstrip_all_space (s : string) :
  Text.all Str.is_space s = true -> Str.lstrip s = "".
Proof.
  induction s as [| c s' IH]; [reflexivity |].
  cbn [Text.all Str.lstrip]. intros H. apply andb_prop in H.
  destruct H as [Hc Hs]. rewrite Hc. apply IH. exact Hs.
Qed.

(** X13: a file that is empty or holds nothing but whitespace (blank
    lines included) gives no coordinate. *)
Theorem blank_file_reads_nothing (content : string) :
  Text.all Str.is_space content = true ->
  read_geographic_coordinates (F := F) content = [].
Proof.
  intros H. unfold read_geographic_coordinates, Str.strip.
  rewrite (lstrip_all_space content H). reflexivity.
Qed.

(** X14: the reader returns at most one coordinate per line, in the
    order of the lines, and invents nothing: each coordinate returned
    comes from a line of the file that [split] cuts into exactly two
    fields, whose stripped texts [float()] turns into its longitude
    and its latitude. *)
Theorem reader_provenance (content : string) :
  read_geographic_coordinates (F := F) content
  = flat_map kept (Str.splitlines (Str.strip content))
  /\ length (read_geographic_coordinates (F := F) content)
     <= length (Str.splitlines (Str.strip content))
  /\ forall c : F * F,
      In c (read_geographic_coordinates content) ->
      exists line a b : string,
        In line (Str.splitlines (Str.strip content))
        /\ Str.split "," line = [a; b]
        /\ float_of_str (Str.strip a) = Some (fst c)
        /\ float_of_str (Str.strip b) = Some (snd c).
Proof.
  split; [apply read_by_line | split].
  - rewrite read_by_line.
    induction (Str.splitlines (Str.strip content)) as [| l ls IH];
      [apply Nat.le_refl |].
    cbn [flat_map length]. rewrite length_app. unfold kept at 1.
    destruct (read_line l); cbn [length]; lia.
  - intros c Hin. apply read_member in Hin.
    destruct Hin as (line & Hline & Hread). exists line.
    unfold read_line in Hread.
    destruct (Str.split "," line) as [| a [| b [| x xs]]] eqn:Hsplit;
      cbn [length Nat.eqb negb orb] in Hread; try discriminate Hread.
    exists a, b. cbn [nth] in Hread.
    destruct (Str.is_empty (Str.strip a) || Str.is_empty (Str.strip b));
      [discriminate |].
    destruct (float_of_str (Str.strip a)) as [lon |]; [| discriminate].
    destruct (float_of_str (Str.strip b)) as [lat |]; [| discriminate].
    destruct (flt lon (of_int (-180)) || flt (of_int 180) lon
              || flt lat (of_int (-90)) || flt (of_int 90) lat);
      [discriminate |].
    injection Hread as <-. repeat split; assumption || reflexivity.
Qed.
End ReaderMore.

(** * More on the reader in binary64 *)

Module B64More.
Local Open Scope float_scope.

Lemma infinite_view (x : float) :
  PrimFloat.is_infinity x = true ->
  exists s : bool, Prim2SF x = S754_infinity s.
Proof.
  unfold PrimFloat.is_infinity.
  rewrite FloatAxioms.eqb_spec, FloatAxioms.abs_spec.
  destruct (Prim2SF x) as [s | s | | s m e]; intros H;
    try (vm_compute in H; discriminate H).
  exists s. reflexivity.
Qed.

Lemma bounded_not_infinite (lo x hi : float) :
  PrimFloat.is_infinity lo = false -> PrimFloat.is_infinity hi = false ->
  B64.in_bounds lo x hi = true -> PrimFloat.is_infinity x = false.
Proof.
  intros Hlo Hhi Hb. unfold B64.in_bounds in Hb.
  apply andb_prop in Hb. destruct Hb as [H1 H2].
  destruct (PrimFloat.is_infinity x) eqn:Hx; [| reflexivity].
  destruct (infinite_view x Hx) as [s Hs].
  rewrite FloatAxioms.leb_spec, Hs in H1, H2.
  unfold PrimFloat.is_infinity in Hlo, Hhi.
  rewrite FloatAxioms.eqb_spec, FloatAxioms.abs_spec in Hlo, Hhi.
  destruct s.
  - destruct (Prim2SF lo) as [s | s | | s m e];
      try (vm_compute in H1; discriminate H1).
    destruct s; vm_compute in Hlo; discriminate Hlo.
  - destruct (Prim2SF hi) as [s | s | | s m e];
      try (vm_compute in H2; discriminate H2).
    destruct s; vm_compute in Hhi; discriminate Hhi.
Qed.

Section Reader.
Variables libm_sin libm_cos : float -> float.
Context {FT : FloatText float}.

(** X15: in binary64 each component of a coordinate the reader
    returns is nan, or is a number within its bounds, the bounds
    included; an infinite longitude or latitude is never returned. *)
Theorem reader_finite_or_nan (content : string) (lon lat : float) :
  In (lon, lat)
     (@read_geographic_coordinates float (B64.arith libm_sin libm_cos)
        FT content) ->
  (PrimFloat.is_nan lon = true
   \/ (B64.in_bounds (-180) lon 180 = true
       /\ PrimFloat.is_infinity lon = false))
  /\ (PrimFloat.is_nan lat = true
      \/ (B64.in_bounds (-90) lat 90 = true
          /\ PrimFloat.is_infinity lat = false)).
Proof.
  intros Hin.
  destruct (B64Facts.reader_range libm_sin libm_cos content lon lat Hin)
    as [Hlon Hlat].
  split.
  - destruct Hlon as [Hn | Hb]; [left; exact Hn | right].
    split; [exact Hb |].
    apply (bounded_not_infinite (-180) lon 180); [reflexivity .. | exact Hb].
  - destruct Hlat as [Hn | Hb]; [left; exact Hn | right].
    split; [exact Hb |].
    apply (bounded_not_infinite (-90) lat 90); [reflexivity .. | exact Hb].
Qed.
End Reader.
End B64More.

(** * More on the sampler and the perturbation in exact arithmetic *)

Module ExactMore.
Import Contract ExactFacts ExactPerturbation.
Local Open Scope R_scope.
#[local] Existing Instance Exact.arith.

Section Sampler.
Context {SP : SciPy R} {RS : RandomSource R}.

Lemma run_value (epsilon r theta : R) (w : World R) :
  epsilon <> 0 ->
  fst (sample_offset epsilon w) = inr (r, theta) ->
  r = c_of (drawn_p w) / epsilon /\ theta = drawn_angle w.
Proof.
  intros He Hrun. unfold sample_offset in Hrun.
  rewrite (exact_run epsilon w He) in Hrun. injection Hrun as <- <-.
  split; [unfold c_of; field; exact He | reflexivity].
Qed.

(** X16: the radius the sampler returns inverts the cumulative
    distribution of the planar Laplace radius: with Lambert W exact
    on the branch k = -1, a positive budget and a draw [p] in
    [[0, 1)], the radius [r] satisfies
    [1 - (1 + epsilon r) exp (- epsilon r) = p]. *)
Theorem sampler_inverts_cdf (epsilon r theta : R) (w : World R) :
  on_branch -> 0 < epsilon -> 0 <= drawn_p w < 1 ->
  fst (sample_offset epsilon w) = inr (r, theta) ->
  1 - (1 + epsilon * r) * exp (- (epsilon * r)) = drawn_p w.
Proof.
  intros Hb He Hp Hrun.
  destruct (run_value epsilon r theta w ltac:(lra) Hrun) as [-> _].
  apply radial_cdf_inverted; assumption.
Qed.

Lemma c_of_increasing (p1 p2 : R) :
  on_branch -> 0 <= p1 -> p1 < p2 -> p2 < 1 -> c_of p1 < c_of p2.
Proof.
  intros Hb H0 H12 H1.
  destruct (Hb _ 1e-8 (argument_in_domain p1 ltac:(lra))) as [Hw1 Hz1].
  destruct (Hb _ 1e-8 (argument_in_domain p2 ltac:(lra))) as [Hw2 Hz2].
  unfold c_of.
  set (W1 := fst (lambertw ((p1 - 1) / exp 1) (-1) 1e-8)) in *.
  set (W2 := fst (lambertw ((p2 - 1) / exp 1) (-1) 1e-8)) in *.
  assert (Hz : (p1 - 1) / exp 1 < (p2 - 1) / exp 1).
  { pose proof (exp_pos 1) as He.
    assert (Hi : 0 < / exp 1) by (apply Rinv_0_lt_compat; exact He).
    unfold Rdiv. nra. }
  destruct (Rtotal_order W1 W2) as [Hlt | [Heq | Hgt]].
  - pose proof (BranchFacts.decreasing W1 W2 Hlt Hw2). lra.
  - rewrite Heq in Hz1. lra.
  - lra.
Qed.

(** X17: the radius grows with the draw: for one positive budget and
    Lambert W exact on the branch, a larger [p] in [[0, 1)] gives a
    strictly larger radius. *)
Theorem radius_increasing (epsilon r1 r2 theta1 theta2 : R)
    (w1 w2 : World R) :
  on_branch -> 0 < epsilon ->
  0 <= drawn_p w1 -> drawn_p w1 < drawn_p w2 -> drawn_p w2 < 1 ->
  fst (sample_offset epsilon w1) = inr (r1, theta1) ->
  fst (sample_offset epsilon w2) = inr (r2, theta2) ->
  r1 < r2.
Proof.
  intros Hb He H0 H12 H1 Hrun1 Hrun2.
  destruct (run_value epsilon r1 theta1 w1 ltac:(lra) Hrun1) as [-> _].
  destruct (run_value epsilon r2 theta2 w2 ltac:(lra) Hrun2) as [-> _].
  pose proof (c_of_increasing _ _ Hb H0 H12 H1) as Hc.
  assert (Hi : 0 < / epsilon) by (apply Rinv_0_lt_compat; exact He).
  unfold Rdiv. nra.
Qed.

(** X18: the radius is zero exactly when the draw is zero: for a
    positive budget and Lambert W exact on the branch, [p = 0] gives
    the offset of radius 0 and every [p] in [(0, 1)] a positive
    radius. *)
Theorem radius_zero_iff (epsilon r theta : R) (w : World R) :
  on_branch -> 0 < epsilon -> 0 <= drawn_p w < 1 ->
  fst (sample_offset epsilon w) = inr (r, theta) ->
  (r = 0 <-> drawn_p w = 0) /\ (0 < drawn_p w -> 0 < r).
Proof.
  intros Hb He Hp Hrun.
  destruct (run_value epsilon r theta w ltac:(lra) Hrun) as [-> _].
  destruct (Hb _ 1e-8 (argument_in_domain (drawn_p w) Hp)) as [Hw Hz].
  pose proof (c_of_nonneg (drawn_p w) Hb Hp) as Hc.
  assert (Hi : 0 < / epsilon) by (apply Rinv_0_lt_compat; exact He).
  pose proof (exp_pos 1) as He1.
  assert (Hm1 : exp (-1) = / exp 1)
    by (rewrite <- exp_Ropp; f_equal; lra).
  assert (Hzero : c_of (drawn_p w) = 0 <-> drawn_p w = 0).
  { unfold c_of in *.
    set (W := fst (lambertw ((drawn_p w - 1) / exp 1) (-1) 1e-8)) in *.
    split.
    - intros H0. assert (HW : W = -1) by lra. rewrite HW, Hm1 in Hz.
      assert (Hq : (drawn_p w - 1) / exp 1 * exp 1 = drawn_p w - 1)
        by (field; lra).
      rewrite <- Hz in Hq.
      assert (Hq' : -1 * / exp 1 * exp 1 = -1) by (field; lra).
      lra.
    - intros H0.
      assert (HW : W = -1).
      { apply (BranchFacts.unique ((drawn_p w - 1) / exp 1));
          [exact Hw | lra | exact Hz |].
        rewrite H0, Hm1. unfold Rdiv. lra. }
      lra. }
  split.
  - split.
    + intros H0. apply Hzero.
      assert (Hq : c_of (drawn_p w) / epsilon * epsilon = c_of (drawn_p w))
        by (field; lra).
      rewrite H0 in Hq. lra.
    + intros H0. apply Hzero in H0. rewrite H0. unfold Rdiv. lra.
  - intros Hpos.
    assert (Hne : c_of (drawn_p w) <> 0) by (intros H0; apply Hzero in H0; lra).
    unfold Rdiv. nra.
Qed.
End Sampler.

(** X19: the perturbation moves the point by the radius: away from
    the poles, the change of latitude times 111320 and the change of
    longitude times 111320 and the cosine of the latitude are the two
    sides of a right triangle whose hypotenuse is [r]. *)
Theorem offset_has_length_r (lon lat r theta lon' lat' : R) :
  cos (lat * (PI / 180)) <> 0 ->
  perturb (lon, lat) (r, theta) = inr (lon', lat') ->
  ((lat' - lat) * 111320) * ((lat' - lat) * 111320)
  + ((lon' - lon) * 111320 * cos (lat * (PI / 180)))
    * ((lon' - lon) * 111320 * cos (lat * (PI / 180)))
  = r * r.
Proof.
  intros Hcos Hrun. rewrite perturb_exact in Hrun. injection Hrun as <- <-.
  pose proof (sin2_cos2 theta) as Hsc. unfold Rsqr in Hsc.
  replace ((lat + r * sin theta / 111320 - lat) * 111320)
    with (r * sin theta) by (field; lra).
  replace ((lon + r * cos theta / (111320 * cos (lat * (PI / 180))) - lon)
           * 111320 * cos (lat * (PI / 180)))
    with (r * cos theta) by (field; exact Hcos).
  nra.
Qed.
End ExactMore.

(** * More on the batch in exact arithmetic *)

Module ExactBatch.
Import Contract ExactFacts ExactPerturbation.
Local Open Scope R_scope.
#[local] Existing Instance Exact.arith.

Section Run.
Context {FT : FloatText R} {SP : SciPy R} {RS : RandomSource R}.

(** X20: in exact arithmetic a run over a directory returns for every
    budget other than zero, the negative ones included: nothing can
    raise but the division by the budget. *)
Theorem nonzero_budget_returns
    (input_directory : list (string * option string)) (epsilon : R)
    (include_original : bool) :
  epsilon <> 0 ->
  forall w : World R,
  exists (outs : list (string * list string)) (w' : World R),
    process_privacy_dataset input_directory epsilon include_original w
    = (inr outs, w').
Proof.
  intros He.
  induction input_directory as [| [name [content |]] rest IH]; intros w.
  - exists [], w. reflexivity.
  - rewrite dataset_step, file_run.
    destruct (RunsExact.loop_returns SP RS
                (read_geographic_coordinates content) epsilon He [] w)
      as (ps & w1 & Hloop).
    rewrite Hloop. destruct (IH w1) as (outs & w2 & Hrest).
    rewrite Hrest. eexists _, _. reflexivity.
  - cbn [process_privacy_dataset]. apply IH.
Qed.

(** X21: a draw of zero releases the coordinate as it is: with Lambert
    W exact on the branch and a positive budget, [p = 0] gives the
    radius 0 and the perturbed coordinate is the original one. *)
Theorem zero_draw_moves_nothing (lon lat epsilon : R) (w : World R) :
  on_branch -> 0 < epsilon -> drawn_p w = 0 ->
  fst (add_privacy_noise_to_geographic_coordinate lon lat epsilon w)
  = inr (lon, lat).
Proof.
  intros Hb He Hp.
  destruct (run_with_c lon lat epsilon w) as [_ Hrun]; [lra |].
  rewrite Hrun.
  destruct (Hb _ 1e-8 (argument_in_domain (drawn_p w) ltac:(lra)))
    as [Hw Hz].
  assert (Hc : c_of (drawn_p w) = 0).
  { unfold c_of.
    assert (HW : fst (lambertw ((drawn_p w - 1) / exp 1) (-1) 1e-8) = -1).
    { apply (BranchFacts.unique ((drawn_p w - 1) / exp 1));
        [exact Hw | lra | exact Hz |].
      rewrite Hp.
      replace (exp (-1)) with (/ exp 1)
        by (rewrite <- exp_Ropp; f_equal; lra).
      unfold Rdiv. lra. }
    lra. }
  rewrite Hc. f_equal. f_equal; unfold Rdiv; ring.
Qed.
End Run.
End ExactBatch.

(** * More on the lines of a file *)

Module LineFacts.
Local Open Scope string_scope.

Lemma splitlines_from_lines (s : string) :
  forall skip_lf : bool,
    Forall (fun line : string => Text.no_break line = true)
           (Str.splitlines_from skip_lf s).
Proof.
  induction s as [| c s' IH]; intros skip_lf; [constructor |].
  cbn [Str.splitlines_from].
  destruct (skip_lf && Ascii.eqb c "010"); [apply IH |].
  destruct (Str.is_linebreak c) eqn:Hc.
  - constructor; [reflexivity | apply IH].
  - pose proof (IH false) as Hrest.
    destruct (Str.splitlines_from false s') as [| l ls].
    + constructor; [| constructor].
      unfold Text.no_break. cbn [Text.all]. rewrite Hc. reflexivity.
    + inversion Hrest as [| ? ? Hl Hls]; subst.
      constructor; [| exact Hls].
      unfold Text.no_break in *. cbn [Text.all]. rewrite Hc. exact Hl.
Qed.

Lemma count_app (c : ascii) (a b : string) :
  Text.count c (a ++ b) = Text.count c a + Text.count c b.
Proof.
  induction a as [| x a' IH]; [reflexivity |].
  cbn [append Text.count]. rewrite IH. lia.
Qed.

Lemma split_one_field (sep : ascii) (s : string) :
  Text.count sep s = 0 -> Str.split sep s = [s].
Proof.
  induction s as [| c s' IH]; [reflexivity |].
  cbn [Text.count Str.split].
  destruct (Ascii.eqb c sep); [discriminate |].
  cbn [Nat.add]. intros H. rewrite (IH H). reflexivity.
Qed.

Lemma split_two_fields (sep : ascii) (a b : string) :
  Text.count sep a = 0 -> Text.count sep b = 0 ->
  Str.split sep (a ++ String sep b) = [a; b].
Proof.
  intros Ha Hb. induction a as [| c a' IH].
  - cbn [append Str.split]. rewrite Ascii.eqb_refl.
    rewrite (split_one_field sep b Hb). reflexivity.
  - cbn [Text.count] in Ha. cbn [append Str.split].
    destruct (Ascii.eqb c sep); [discriminate |].
    cbn [Nat.add] in Ha. rewrite (IH Ha). reflexivity.
Qed.

Lemma strip_keeps_count (c : ascii) (s : string) :
  Text.count c s = 0 -> Text.count c (Str.strip s) = 0.
Proof.
  intros H. unfold Str.strip.
  destruct (TextFacts.lstrip_spec s) as (l & Hs & _).
  destruct (TextFacts.rstrip_spec (Str.lstrip s)) as (r & Ht & _).
  rewrite Hs, Ht, !count_app in H. lia.
Qed.

Lemma strip_twice (s : string) : Str.strip (Str.strip s) = Str.strip s.
Proof.
  unfold Str.strip.
  destruct (TextFacts.lstrip_spec s) as (l & _ & _ & Hf).
  destruct (TextFacts.rstrip_spec (Str.lstrip s)) as (r & _ & _ & Hlast).
  rewrite (TextFacts.lstrip_fixed _ (TextFacts.rstrip_first _ Hf)).
  apply TextFacts.rstrip_fixed. exact Hlast.
Qed.

(** The lines the reader examines hold no line boundary: what
    [splitlines] returns is free of the characters it cuts at. *)
Theorem lines_hold_no_break (s : string) :
  Forall (fun line : string => Text.no_break line = true) (Str.splitlines s).
Proof. apply splitlines_from_lines. Qed.

Section Fields.
Context {F : Type} {FL : PyFloat F} {FT : FloatText F}.

(** X22: whitespace around a field does not count: a line made of two
    fields without comma is read as the line of the two stripped
    fields is. *)
Theorem fields_are_stripped (a b : string) :
  Text.count "," a = 0 -> Text.count "," b = 0 ->
  read_line (F := F) (a ++ "," ++ b)
  = read_line (F := F) (Str.strip a ++ "," ++ Str.strip b).
Proof.
  intros Ha Hb. unfold read_line.
  change ("," ++ b) with (String "," b).
  change ("," ++ Str.strip b) with (String "," (Str.strip b)).
  rewrite (split_two_fields "," a b Ha Hb).
  rewrite (split_two_fields "," (Str.strip a) (Str.strip b)
             (strip_keeps_count _ _ Ha) (strip_keeps_count _ _ Hb)).
  cbn [nth length]. rewrite !strip_twice. reflexivity.
Qed.
End Fields.
End LineFacts.

(** * Fixed runs for the properties above *)

Module MoreRuns64.
Import Fixture Inputs.
Local Open Scope float_scope.
#[local] Existing Instance B64.table_arith.
#[local] Existing Instance B64.table_text.
#[local] Existing Instance source64.

(** The two lines give two perturbed coordinates and two draws. *)
Lemma batch_closed_form_witness :
  snd (@perturb_loop float _ (always (-2, 0)) _
         (read_geographic_coordinates two_lines) 1 [] start64)
  = Nat.iter 2 after_draws start64.
Proof.
  refine (proj1
           (@batch_closed_form float _ (always (-2, 0)) _
              (read_geographic_coordinates two_lines)
              (result_or []
                 (fst (@perturb_loop float _ (always (-2, 0)) _
                         (read_geographic_coordinates two_lines) 1 []
                         start64)))
              1 start64
              (snd (@perturb_loop float _ (always (-2, 0)) _
                      (read_geographic_coordinates two_lines) 1 [] start64))
              _)).
  vm_compute. reflexivity.
Defined.

(** With the budget 0 the listing raises ZeroDivisionError. *)
Lemma dataset_raises_only_witness :
  (ZeroDivisionError = ZeroDivisionError /\ feq0 0 = true)
  \/ ZeroDivisionError = ValueError.
Proof.
  apply (@dataset_raises_only float _ _ (always (-2, 0)) _ listing 0 true
           start64
           (snd (@process_privacy_dataset float _ _ (always (-2, 0)) _
                   listing 0 true start64))).
  vm_compute. reflexivity.
Defined.

(** The empty file is written with its header alone. *)
Lemma file_without_coordinates_witness :
  @process_file float _ _ (always (-2, 0)) _ "empty.txt" "" 0 true start64
  = (inr (output_name 0 "empty.txt", [header true]), start64).
Proof.
  apply (@file_without_coordinates float _ _ (always (-2, 0)) _).
  vm_compute. reflexivity.
Defined.

(** With the budget 0 the listing without its first file returns. *)
Lemma zero_budget_run_witness :
  fst (@process_privacy_dataset float _ _ (always (-2, 0)) _
         (tl listing) 0 true start64)
  = inr [(output_name 0 "empty.txt", [header true])].
Proof.
  refine (proj1 (@zero_budget_run float _ _ (always (-2, 0)) _
                   (tl listing) 0 true start64 _)).
  vm_compute. reflexivity.
Defined.

(** The file of two lines, without the originals. *)
Lemma perturbed_only_file_witness :
  exists ps : list (float * float),
    snd (result_or (EmptyString, [])
           (fst (@process_file float _ _ (always (-2, 0)) _
                   "a.csv" two_lines 1 false start64)))
    = header false :: map perturbed_row ps
    /\ length ps = 2%nat.
Proof.
  destruct (@perturbed_only_file float _ _ (always (-2, 0)) _
              "a.csv" two_lines 1 start64
              (snd (@process_file float _ _ (always (-2, 0)) _
                      "a.csv" two_lines 1 false start64))
              (result_or (EmptyString, [])
                 (fst (@process_file float _ _ (always (-2, 0)) _
                         "a.csv" two_lines 1 false start64))))
    as (ps & Hrows & Hlen & _).
  - vm_compute. reflexivity.
  - exists ps. split; [exact Hrows | exact Hlen].
Defined.

(** The listing gives two files, for its two regular files. *)
Lemma dataset_outputs_witness :
  Forall2
    (fun (out : string * list string) (file : string * string) =>
       fst out = output_name 1 (fst file)
       /\ hd EmptyString (snd out) = header true
       /\ length (snd out)
          = S (length (read_geographic_coordinates (snd file))))
    (result_or []
       (fst (@process_privacy_dataset float _ _ (always (-2, 0)) _
               listing 1 true start64)))
    (regular_files listing).
Proof.
  apply (@dataset_outputs float _ _ (always (-2, 0)) _ listing 1 true start64
           (snd (@process_privacy_dataset float _ _ (always (-2, 0)) _
                   listing 1 true start64))).
  vm_compute. reflexivity.
Defined.

(** A line of three fields is skipped. *)
Lemma line_needs_one_comma_witness :
  read_line (F := float) "0,0,0" = None.
Proof.
  apply line_needs_one_comma. vm_compute. discriminate.
Defined.

(** A file of blanks and line feeds gives nothing. *)
Lemma blank_file_reads_nothing_witness :
  read_geographic_coordinates (F := float) ("  " ++ newline ++ " ") = [].
Proof.
  apply blank_file_reads_nothing. vm_compute. reflexivity.
Defined.

(** The coordinate of the line [0,90] is within the bounds. *)
Lemma reader_finite_or_nan_witness :
  (PrimFloat.is_nan 0 = true
   \/ (B64.in_bounds (-180) 0 180 = true /\ PrimFloat.is_infinity 0 = false))
  /\ (PrimFloat.is_nan 90 = true
      \/ (B64.in_bounds (-90) 90 90 = true
          /\ PrimFloat.is_infinity 90 = false)).
Proof.
  apply (@B64More.reader_finite_or_nan B64.table_sin B64.table_cos
           B64.table_text "0,90" 0 90).
  vm_compute. left. reflexivity.
Defined.

(** The fields [ 0 ] and [90 ] are read as [0] and [90]. *)
Lemma fields_are_stripped_witness :
  read_line (F := float) (" 0 " ++ "," ++ "90 ")
  = read_line (F := float) (Str.strip " 0 " ++ "," ++ Str.strip "90 ").
Proof.
  apply LineFacts.fields_are_stripped; reflexivity.
Defined.
End MoreRuns64.

Module MoreRunsExact.
Import Fixture Inputs Contract ExactFacts ExactPerturbation.
Local Open Scope R_scope.
#[local] Existing Instance Exact.arith.

Lemma from_zero_first : drawn_p (RS := source_from_zero) first_draw = 0.
Proof. reflexivity. Qed.

Lemma from_zero_second :
  drawn_p (RS := source_from_zero) second_draw = 1 / 2.
Proof. reflexivity. Qed.

(** The radius of the run with [p = 1/2] and the budget 1. *)
Lemma sampler_inverts_cdf_witness :
  1 - (1 + 1 * (@c_of Branch.exact (1 / 2) / 1))
      * exp (- (1 * (@c_of Branch.exact (1 / 2) / 1)))
  = 1 / 2.
Proof.
  refine (@ExactMore.sampler_inverts_cdf Branch.exact sourceR 1
            (@c_of Branch.exact (1 / 2) / 1) (drawn_angle startR) startR
            RunsExact.exact_on_branch _ _ _).
  - lra.
  - rewrite RunsExact.drawn_p_half. lra.
  - unfold sample_offset.
    rewrite (@exact_run Branch.exact sourceR 1 startR) by lra.
    rewrite RunsExact.drawn_p_half. f_equal. f_equal.
    unfold c_of. field.
Defined.

(** The draw 0 gives a smaller radius than the draw 1/2. *)
Lemma radius_increasing_witness :
  @c_of Branch.exact 0 / 1 < @c_of Branch.exact (1 / 2) / 1.
Proof.
  refine (@ExactMore.radius_increasing Branch.exact source_from_zero 1
            (@c_of Branch.exact 0 / 1) (@c_of Branch.exact (1 / 2) / 1)
            (drawn_angle first_draw) (drawn_angle second_draw)
            first_draw second_draw RunsExact.exact_on_branch _ _ _ _ _ _).
  - lra.
  - rewrite from_zero_first. lra.
  - rewrite from_zero_first, from_zero_second. lra.
  - rewrite from_zero_second. lra.
  - unfold sample_offset.
    rewrite (@exact_run Branch.exact source_from_zero 1 first_draw) by lra.
    rewrite from_zero_first. f_equal. f_equal. unfold c_of. field.
  - unfold sample_offset.
    rewrite (@exact_run Branch.exact source_from_zero 1 second_draw) by lra.
    rewrite from_zero_second. f_equal. f_equal. unfold c_of. field.
Defined.

(** The draw 0 gives the radius 0. *)
Lemma radius_zero_iff_witness : @c_of Branch.exact 0 / 1 = 0.
Proof.
  refine (proj2 (proj1
            (@ExactMore.radius_zero_iff Branch.exact source_from_zero 1
               (@c_of Branch.exact 0 / 1) (drawn_angle first_draw)
               first_draw RunsExact.exact_on_branch _ _ _)) _).
  - lra.
  - rewrite from_zero_first. lra.
  - unfold sample_offset.
    rewrite (@exact_run Branch.exact source_from_zero 1 first_draw) by lra.
    rewrite from_zero_first. f_equal. f_equal. unfold c_of. field.
  - exact from_zero_first.
Defined.

(** At the origin the offset [(1, 0)] moves the point by 1. *)
Lemma offset_has_length_r_witness :
  ((0 + 1 * sin 0 / 111320 - 0) * 111320)
  * ((0 + 1 * sin 0 / 111320 - 0) * 111320)
  + ((0 + 1 * cos 0 / (111320 * cos (0 * (PI / 180))) - 0)
     * 111320 * cos (0 * (PI / 180)))
    * ((0 + 1 * cos 0 / (111320 * cos (0 * (PI / 180))) - 0)
       * 111320 * cos (0 * (PI / 180)))
  = 1 * 1.
Proof.
  refine (ExactMore.offset_has_length_r 0 0 1 0 _ _ _ _).
  - rewrite Rmult_0_l, cos_0. lra.
  - apply perturb_exact.
Defined.

(** The listing without coordinates, with the budget 1. *)
Lemma nonzero_budget_returns_witness :
  exists (outs : list (string * list string)) (w' : World R),
    @process_privacy_dataset R _ no_text Branch.exact sourceR
      listing 1 true startR
    = (inr outs, w').
Proof.
  refine (@ExactBatch.nonzero_budget_returns no_text Branch.exact sourceR
            listing 1 true _ startR).
  lra.
Defined.

(** The draw 0 leaves the point [(2, 48)] where it is. *)
Lemma zero_draw_moves_nothing_witness :
  fst (@add_privacy_noise_to_geographic_coordinate R _ Branch.exact
         source_from_zero 2 48 1 first_draw)
  = inr (2, 48).
Proof.
  refine (@ExactBatch.zero_draw_moves_nothing Branch.exact source_from_zero
            2 48 1 first_draw RunsExact.exact_on_branch _ _).
  - lra.
  - exact from_zero_first.
Defined.
End MoreRunsExact.

(** * A budget that is not a number *)

Module B64Budget.
Local Open Scope float_scope.

Lemma nan_mul (x : float) : nan * x = nan.
Proof.
  apply Prim2SF_inj. rewrite FloatAxioms.mul_spec. reflexivity.
Qed.

Lemma nan_div (x : float) : nan / x = nan.
Proof.
  apply Prim2SF_inj. rewrite FloatAxioms.div_spec. reflexivity.
Qed.

Lemma add_nan (x : float) : x + nan = nan.
Proof.
  apply Prim2SF_inj. rewrite FloatAxioms.add_spec.
  change (Prim2SF nan) with S754_nan.
  destruct (Prim2SF x); reflexivity.
Qed.

Section Sampler.
Variables libm_sin libm_cos : float -> float.
Context {SP : SciPy float} {RS : RandomSource float}.

(** X23: in binary64 a budget that is nan is not rejected: the
    sampler raises nothing and returns a radius that is nan, and the
    perturbation then returns nan for the longitude and for the
    latitude, whatever the coordinate is. *)
Theorem nan_budget_gives_nan (w : World float) :
  fst (@sample_offset float (B64.arith libm_sin libm_cos) SP RS nan w)
  = inr (nan, @drawn_angle float (B64.arith libm_sin libm_cos) RS w)
  /\ forall lon lat : float,
      PrimFloat.is_infinity
        (@drawn_angle float (B64.arith libm_sin libm_cos) RS w) = false ->
      PrimFloat.is_infinity
        (@math_radians float (B64.arith libm_sin libm_cos) lat) = false ->
      fst (@add_privacy_noise_to_geographic_coordinate float
             (B64.arith libm_sin libm_cos) SP RS lon lat nan w)
      = inr (nan, nan).
Proof.
  assert (Hr : forall p : float,
             @radius_of float (B64.arith libm_sin libm_cos) SP nan p = nan).
  { intros p. unfold radius_of. cbn.
    change (B64.int_to_float (-1) / nan) with nan. apply nan_mul. }
  split.
  - unfold sample_offset. rewrite sampler_run. cbn [fst].
    change (feq0 nan) with false. cbv iota. rewrite Hr. reflexivity.
  - intros lon lat Hangle Hlat.
    rewrite add_noise_run, sampler_run. cbn [fst].
    change (feq0 nan) with false. cbv iota. rewrite Hr.
    unfold perturb. cbn [math_sin math_cos B64.arith].
    unfold B64.guarded. rewrite Hangle, Hlat.
    cbn [fmul fdiv fadd B64.arith].
    rewrite !nan_mul, !nan_div, !add_nan. reflexivity.
Qed.
End Sampler.
End B64Budget.

(** * Runs over two listings *)

Section Listings.
Context {F : Type} {FL : PyFloat F} {FT : FloatText F}.
Context {SP : SciPy F} {RS : RandomSource F}.

(** X24: a run over a listing followed by another is the run over the
    first, then the run over the second from the generators as the
    first left them: the files written are those of the first
    followed by those of the second, and an exception of the first
    ends the whole run before the second is looked at. *)
Theorem listing_append (first second : list (string * option string))
    (epsilon : F) (include_original : bool) (w : World F) :
  process_privacy_dataset (first ++ second) epsilon include_original w
  = match process_privacy_dataset first epsilon include_original w with
    | (inl e, w1) => (inl e, w1)
    | (inr outs1, w1) =>
      match process_privacy_dataset second epsilon include_original w1 with
      | (inl e, w2) => (inl e, w2)
      | (inr outs2, w2) => (inr (outs1 ++ outs2), w2)
      end
    end.
Proof.
  revert w. induction first as [| [name [content |]] rest IH]; intros w.
  - cbn [app process_privacy_dataset]. unfold ret.
    destruct (process_privacy_dataset second epsilon include_original w)
      as [[e | outs2] w2]; reflexivity.
  - cbn [app]. rewrite !dataset_step.
    destruct (process_file name content epsilon include_original w)
      as [[e | out] w1]; [reflexivity |].
    rewrite IH.
    destruct (process_privacy_dataset rest epsilon include_original w1)
      as [[e | outs1] w2]; [reflexivity |].
    destruct (process_privacy_dataset second epsilon include_original w2)
      as [[e | outs2] w3]; reflexivity.
  - cbn [app process_privacy_dataset]. apply IH.
Qed.
End Listings.

Module BudgetRuns64.
Import Fixture.
Local Open Scope float_scope.

(** The run with the budget nan at the coordinate [(180, 0)]. *)
Lemma nan_budget_gives_nan_witness :
  fst (@add_privacy_noise_to_geographic_coordinate float
         B64.table_arith (always (-2, 0)) source64 180 0 nan start64)
  = inr (nan, nan).
Proof.
  refine (proj2 (@B64Budget.nan_budget_gives_nan B64.table_sin B64.table_cos
                   (always (-2, 0)) source64 start64) 180 0 _ _);
    vm_compute; reflexivity.
Defined.
End BudgetRuns64.
